(** * NamedFunc: a named evaluator over event records (core/named_func.cpp)

    A [NamedFunc] pairs a string with a callable taking a [Baby] and returning
    either a scalar or a vector.  The operators of the class build new
    callables out of the operands' callables.  This file embeds the class
    and its free functions and proves the properties of the operator algebra.

    Evaluators are C++ callables: they may throw and they may have side
    effects.  They are modelled as functions into a state-and-error monad
    over an abstract [World]; an empty [std::function] is [None]. *)

From Stdlib Require Import ZArith Ascii String.
From stdpp Require Import base list strings pretty.

Local Open Scope string_scope.
Local Open Scope list_scope.

(** ** The scalar type

    [ScalarType] is declared in core/named_func.hpp (a floating point type);
    the operators never look inside it, so it is taken as an interface: the
    functors handed to [ApplyOp], and the implicit conversions the code
    relies on. *)
Class Scalar (T : Type) : Type := {
  zero : T;                         (* the literal [0.] *)
  of_bool : bool -> T;              (* bool -> ScalarType *)
  to_bool : T -> bool;              (* ScalarType -> bool, [x != 0] *)
  to_size_t : T -> nat;             (* ScalarType -> size_t, as [at] takes it;
                                       C++ leaves it undefined on negative
                                       and on too large values *)
  plus : T -> T -> T;
  minus : T -> T -> T;
  multiplies : T -> T -> T;
  divides : T -> T -> T;
  fmod : T -> T -> T;
  negate : T -> T;
  equal_to : T -> T -> bool;
  not_equal_to : T -> T -> bool;
  greater : T -> T -> bool;
  less : T -> T -> bool;
  greater_equal : T -> T -> bool;
  less_equal : T -> T -> bool;
  ToString : T -> string;
  to_bool_of_bool : forall b, to_bool (of_bool b) = b
}.

(** ** Errors

    The faults an evaluation or a construction can end in.  The first is
    [std::bad_function_call] (an empty [std::function] was called), the second
    [std::out_of_range] (thrown by [vector::at]). *)
Inductive Error : Type :=
| InvalidShapeError
| IndexOutOfRangeError
| ShapeMismatchError (msg : string)
| EvaluatorError (msg : string).

(** Modelled from the spec: the ERROR macro of core/utilities.hpp is not among
    the sources; the spec names the failure that the two guards of
    [operator[]] raise through it a ShapeMismatchError. *)
Definition ERROR (msg : string) : Error := ShapeMismatchError msg.

(** Modelled from the spec: ReplaceAll of core/utilities.hpp is not among the
    sources; [CleanName] calls it with [" "] and [""], which the spec
    describes as stripping the spaces of the name. *)
Fixpoint ReplaceAll_space (s : string) : string :=
  match s with
  | EmptyString => EmptyString
  | String c s' =>
      if Ascii.eqb c " "%char then ReplaceAll_space s'
      else String c (ReplaceAll_space s')
  end.

(** ** The order of the arguments of a call

    C++ leaves open in which order the two arguments of
    [op_c(sfa(b), sfb(b))] are evaluated; a compiler settles it.  The choice
    is a parameter of the model: every statement holds for both. *)
Class ArgumentOrder : Type := left_operand_first : bool.

Section NamedFunc.
Context {ScalarType : Type} `{Scalar ScalarType}.
Context {Baby World : Type}.
Context {order : ArgumentOrder}.

(** [VectorType] is a vector of scalars. *)
Local Abbreviation VectorType := (list ScalarType).

(** *** The monad of evaluations: a result or an error, and the world. *)
Definition M (A : Type) : Type := World -> (Error + A) * World.

Definition ret {A} (a : A) : M A := fun w => (inr a, w).
Definition throw {A} (e : Error) : M A := fun w => (inl e, w).
Definition bind {A B} (m : M A) (k : A -> M B) : M B :=
  fun w =>
    match m w with
    | (inr a, w') => k a w'
    | (inl e, w') => (inl e, w')
    end.

Notation "'let*' x ':=' m 'in' k" := (bind m (fun x => k))
  (at level 10, x name, m at level 100, k at level 200).

(** [std::function<ScalarFunc>] and [std::function<VectorFunc>]. *)
Definition ScalarFunc : Type := Baby -> M ScalarType.
Definition VectorFunc : Type := Baby -> M VectorType.

(** Calling a [std::function]: an empty one throws. *)
Definition call {A} (f : option (Baby -> M A)) (b : Baby) : M A :=
  match f with
  | Some g => g b
  | None => throw InvalidShapeError
  end.

(** [v.at(i)] as an rvalue and as the target of an assignment. *)
Definition at_ (v : VectorType) (i : nat) : M ScalarType :=
  match v !! i with
  | Some x => ret x
  | None => throw IndexOutOfRangeError
  end.

Definition assign_at (v : VectorType) (i : nat) (x : ScalarType) : M VectorType :=
  if decide (i < length v) then ret (<[i:=x]> v) else throw IndexOutOfRangeError.

(** [for(size_t i = i0; i < i0 + n; ++i) s = body(i, s)]; the loops of this
    file run up to the size of a vector the body does not resize. *)
Fixpoint for_loop {St} (n i : nat) (body : nat -> St -> M St) (s : St) : M St :=
  match n with
  | O => ret s
  | S n' => let* s' := body i s in for_loop n' (S i) body s'
  end.

(** *** Unary [ApplyOp] (scalar and vector overloads). *)
Definition ApplyOp_scalar (f : option ScalarFunc) (op_c : ScalarType -> ScalarType)
  : option ScalarFunc :=
  match f with
  | None => f
  | Some f => Some (fun b => let* x := f b in ret (op_c x))
  end.

Definition ApplyOp_vector (f : option VectorFunc) (op_c : ScalarType -> ScalarType)
  : option VectorFunc :=
  match f with
  | None => f
  | Some f => Some (fun b => let* v := f b in ret (map op_c v))
  end.

(** *** Binary [ApplyOp], the generic template.

    The chain of [if]/[else if] tests on the validity of the four callables
    is a chain of matches, tried in the order of the source.

    In the scalar/scalar case the two calls are the arguments of one call,
    [op_c(sfa(b), sfb(b))]: they run in the order the compiler chose,
    [left_operand_first].  In the other cases they are separate statements
    and run in the order of the source. *)
Definition ApplyOp (sfa : option ScalarFunc) (vfa : option VectorFunc)
                   (sfb : option ScalarFunc) (vfb : option VectorFunc)
                   (op_c : ScalarType -> ScalarType -> ScalarType)
  : option ScalarFunc * option VectorFunc :=
  match sfa, sfb with
  | Some sfa, Some sfb =>
      (Some (fun b =>
         if left_operand_first
         then let* x := sfa b in let* y := sfb b in ret (op_c x y)
         else let* y := sfb b in let* x := sfa b in ret (op_c x y)), None)
  | _, _ =>
  match sfa, vfb with
  | Some sfa, Some vfb =>
      (None, Some (fun b =>
         let* sa := sfa b in
         let* vb := vfb b in
         let vo := replicate (length vb) zero in
         for_loop (length vo) 0
           (fun i vo => let* y := at_ vb i in assign_at vo i (op_c sa y)) vo))
  | _, _ =>
  match vfa, sfb with
  | Some vfa, Some sfb =>
      (None, Some (fun b =>
         let* va := vfa b in
         let* sb := sfb b in
         let vo := replicate (length va) zero in
         for_loop (length vo) 0
           (fun i vo => let* x := at_ va i in assign_at vo i (op_c x sb)) vo))
  | _, _ =>
  match vfa, vfb with
  | Some vfa, Some vfb =>
      (None, Some (fun b =>
         let* va := vfa b in
         let* vb := vfb b in
         let vo := replicate
                     (if (length vb <? length va)%nat then length vb else length va)
                     zero in
         for_loop (length vo) 0
           (fun i vo => let* x := at_ va i in let* y := at_ vb i in assign_at vo i (op_c x y))
           vo))
  | _, _ => (None, None)
  end end end end.

(** *** [ApplyOp] specialised to [logical_and].

    The body of the loop of the vector/scalar case, on the locals it
    updates: the output [vo], the flag [evaluated] and the cached [sb].  The
    test [!evaluated && va.at(i)] reads [va] only when [evaluated] is false. *)
Definition and_step (va : VectorType) (sfb : ScalarFunc) (b : Baby) (i : nat)
    (locals : VectorType * bool * ScalarType) : M (VectorType * bool * ScalarType) :=
  let '(vo, evaluated, sb) := locals in
  let* test := (if negb evaluated
                then let* x := at_ va i in ret (to_bool x)
                else ret false) in
  let* cache := (if test
                 then let* sb' := sfb b in ret (true, sb')
                 else ret (evaluated, sb)) in
  let* x' := at_ va i in
  let* vo' := assign_at vo i (of_bool (to_bool x' && to_bool (snd cache))) in
  ret (vo', fst cache, snd cache).

Definition ApplyOp_logical_and
    (sfa : option ScalarFunc) (vfa : option VectorFunc)
    (sfb : option ScalarFunc) (vfb : option VectorFunc)
  : option ScalarFunc * option VectorFunc :=
  match sfa, sfb with
  | Some sfa, Some sfb =>
      (Some (fun b =>
         let* x := sfa b in
         if to_bool x then let* y := sfb b in ret (of_bool (to_bool y))
         else ret (of_bool false)), None)
  | _, _ =>
  match sfa, vfb with
  | Some sfa, Some vfb =>
      (None, Some (fun b =>
         let* sa := sfa b in
         if negb (to_bool sa)
         then let* vb := vfb b in ret (replicate (length vb) (of_bool false))
         else vfb b))
  | _, _ =>
  match vfa, sfb with
  | Some vfa, Some sfb =>
      (None, Some (fun b =>
         let* va := vfa b in
         let vo := replicate (length va) zero in
         let* r := for_loop (length vo) 0 (and_step va sfb b) (vo, false, zero) in
         ret (fst (fst r))))
  | _, _ =>
  match vfa, vfb with
  | Some vfa, Some vfb =>
      (None, Some (fun b =>
         let* va := vfa b in
         let* vb := vfb b in
         let vo := replicate
                     (if (length vb <? length va)%nat then length vb else length va)
                     zero in
         for_loop (length vo) 0
           (fun i vo =>
              let* x := at_ va i in let* y := at_ vb i in
              assign_at vo i (of_bool (to_bool x && to_bool y)))
           vo))
  | _, _ => (None, None)
  end end end end.

(** *** [ApplyOp] specialised to [logical_or].

    The test [!(evaluated || va.at(i))] reads [va] only when [evaluated] is
    false. *)
Definition or_step (va : VectorType) (sfb : ScalarFunc) (b : Baby) (i : nat)
    (locals : VectorType * bool * ScalarType) : M (VectorType * bool * ScalarType) :=
  let '(vo, evaluated, sb) := locals in
  let* test := (if evaluated
                then ret true
                else let* x := at_ va i in ret (to_bool x)) in
  let* cache := (if negb test
                 then let* sb' := sfb b in ret (true, sb')
                 else ret (evaluated, sb)) in
  let* x' := at_ va i in
  let* vo' := assign_at vo i (of_bool (to_bool x' || to_bool (snd cache))) in
  ret (vo', fst cache, snd cache).

Definition ApplyOp_logical_or
    (sfa : option ScalarFunc) (vfa : option VectorFunc)
    (sfb : option ScalarFunc) (vfb : option VectorFunc)
  : option ScalarFunc * option VectorFunc :=
  match sfa, sfb with
  | Some sfa, Some sfb =>
      (Some (fun b =>
         let* x := sfa b in
         if to_bool x then ret (of_bool true)
         else let* y := sfb b in ret (of_bool (to_bool y))), None)
  | _, _ =>
  match sfa, vfb with
  | Some sfa, Some vfb =>
      (None, Some (fun b =>
         let* sa := sfa b in
         if to_bool sa
         then let* vb := vfb b in ret (replicate (length vb) (of_bool true))
         else vfb b))
  | _, _ =>
  match vfa, sfb with
  | Some vfa, Some sfb =>
      (None, Some (fun b =>
         let* va := vfa b in
         let vo := replicate (length va) zero in
         let* r := for_loop (length vo) 0 (or_step va sfb b) (vo, false, zero) in
         ret (fst (fst r))))
  | _, _ =>
  match vfa, vfb with
  | Some vfa, Some vfb =>
      (None, Some (fun b =>
         let* va := vfa b in
         let* vb := vfb b in
         let vo := replicate
                     (if (length vb <? length va)%nat then length vb else length va)
                     zero in
         for_loop (length vo) 0
           (fun i vo =>
              let* x := at_ va i in let* y := at_ vb i in
              assign_at vo i (of_bool (to_bool x || to_bool y)))
           vo))
  | _, _ => (None, None)
  end end end end.

(** ** The class *)
Record NamedFunc : Type := {
  name_ : string;
  scalar_func_ : option ScalarFunc;
  vector_func_ : option VectorFunc
}.

(** [CleanName]: strip the spaces of the name. *)
Definition CleanName (f : NamedFunc) : NamedFunc :=
  {| name_ := ReplaceAll_space (name_ f);
     scalar_func_ := scalar_func_ f;
     vector_func_ := vector_func_ f |}.

(** The constructors from a name and a callable, and from a constant. *)
Definition NamedFunc_scalar (name : string) (function : option ScalarFunc) : NamedFunc :=
  CleanName {| name_ := name; scalar_func_ := function; vector_func_ := None |}.

Definition NamedFunc_vector (name : string) (function : option VectorFunc) : NamedFunc :=
  CleanName {| name_ := name; scalar_func_ := None; vector_func_ := function |}.

Definition NamedFunc_const (x : ScalarType) : NamedFunc :=
  {| name_ := ToString x;
     scalar_func_ := Some (fun _ => ret x);
     vector_func_ := None |}.

(** [Name()] and [Name(name)]. *)
Definition Name (f : NamedFunc) : string := name_ f.

Definition Name_set (f : NamedFunc) (name : string) : NamedFunc :=
  CleanName {| name_ := name;
               scalar_func_ := scalar_func_ f;
               vector_func_ := vector_func_ f |}.

(** The two overloads of [Function]. *)
Definition Function_scalar (this : NamedFunc) (f : option ScalarFunc) : NamedFunc :=
  match f with
  | None => this
  | Some _ => {| name_ := name_ this; scalar_func_ := f; vector_func_ := None |}
  end.

Definition Function_vector (this : NamedFunc) (f : option VectorFunc) : NamedFunc :=
  match f with
  | None => this
  | Some _ => {| name_ := name_ this; scalar_func_ := None; vector_func_ := f |}
  end.

Definition ScalarFunction (f : NamedFunc) : option ScalarFunc := scalar_func_ f.
Definition VectorFunction (f : NamedFunc) : option VectorFunc := vector_func_ f.

(** [static_cast<bool>] of a [std::function]: whether it holds a callable. *)
Definition valid {A} (f : option A) : bool :=
  match f with Some _ => true | None => false end.

Definition IsScalar (f : NamedFunc) : bool := valid (scalar_func_ f).
Definition IsVector (f : NamedFunc) : bool := valid (vector_func_ f).

Definition GetScalar (f : NamedFunc) (b : Baby) : M ScalarType := call (scalar_func_ f) b.
Definition GetVector (f : NamedFunc) (b : Baby) : M VectorType := call (vector_func_ f) b.

(** *** Compound assignments: the receiver before, the argument, the
    receiver after.  The name is concatenated as it is, and both callables
    are overwritten with the pair [ApplyOp] returned. *)
Definition compound_assign (symbol : string)
    (op_c : ScalarType -> ScalarType -> ScalarType)
    (this func : NamedFunc) : NamedFunc :=
  let fp := ApplyOp (scalar_func_ this) (vector_func_ this)
                    (scalar_func_ func) (vector_func_ func) op_c in
  {| name_ := "(" +:+ name_ this +:+ ")" +:+ symbol +:+ "(" +:+ name_ func +:+ ")";
     scalar_func_ := fst fp;
     vector_func_ := snd fp |}.

Definition operator_plus_eq : NamedFunc -> NamedFunc -> NamedFunc :=
  compound_assign "+" plus.
Definition operator_minus_eq : NamedFunc -> NamedFunc -> NamedFunc :=
  compound_assign "-" minus.
Definition operator_mul_eq : NamedFunc -> NamedFunc -> NamedFunc :=
  compound_assign "*" multiplies.
Definition operator_div_eq : NamedFunc -> NamedFunc -> NamedFunc :=
  compound_assign "/" divides.
Definition operator_mod_eq : NamedFunc -> NamedFunc -> NamedFunc :=
  compound_assign "%" fmod.

(** *** [operator[]]: the two guards, then a scalar NamedFunc. *)
Definition operator_index (this func : NamedFunc) : Error + NamedFunc :=
  if IsScalar this
  then inl (ERROR ("Cannot apply indexing operator to scalar NamedFunc " +:+ Name this))
  else if IsVector func
  then inl (ERROR ("Cannot use vector " +:+ Name func +:+ " as index"))
  else
    let vec := VectorFunction this in
    let index := ScalarFunction func in
    inr (NamedFunc_scalar ("(" +:+ Name this +:+ ")[" +:+ Name func +:+ "]")
           (Some (fun b =>
                    let* v := call vec b in
                    let* i := call index b in
                    at_ v (to_size_t i)))).

(** *** The arithmetic operators take their operands by value and return
    the compound assignment on the copy of the left one. *)
Definition operator_plus (f g : NamedFunc) : NamedFunc := operator_plus_eq f g.
Definition operator_minus (f g : NamedFunc) : NamedFunc := operator_minus_eq f g.
Definition operator_mul (f g : NamedFunc) : NamedFunc := operator_mul_eq f g.
Definition operator_div (f g : NamedFunc) : NamedFunc := operator_div_eq f g.
Definition operator_mod (f g : NamedFunc) : NamedFunc := operator_mod_eq f g.

(** *** Unary operators. *)
Definition operator_unary_plus (f : NamedFunc) : NamedFunc :=
  Name_set f ("+(" +:+ Name f +:+ ")").

Definition operator_unary_minus (f : NamedFunc) : NamedFunc :=
  let f := Name_set f ("-(" +:+ Name f +:+ ")") in
  let f := Function_scalar f (ApplyOp_scalar (ScalarFunction f) negate) in
  let f := Function_vector f (ApplyOp_vector (VectorFunction f) negate) in
  f.

(** [logical_not<ScalarType>] behind [function<ScalarType(ScalarType)>]. *)
Definition logical_not (x : ScalarType) : ScalarType := of_bool (negb (to_bool x)).

Definition operator_not (f : NamedFunc) : NamedFunc :=
  let f := Name_set f ("!(" +:+ Name f +:+ ")") in
  let f := Function_scalar f (ApplyOp_scalar (ScalarFunction f) logical_not) in
  let f := Function_vector f (ApplyOp_vector (VectorFunction f) logical_not) in
  f.

(** *** Comparisons and logical operators: the name goes through
    [Name(name)], the callables through the two [Function] setters. *)
Definition through_setters (symbol : string)
    (apply : option ScalarFunc -> option VectorFunc ->
             option ScalarFunc -> option VectorFunc ->
             option ScalarFunc * option VectorFunc)
    (f g : NamedFunc) : NamedFunc :=
  let f := Name_set f ("(" +:+ Name f +:+ ")" +:+ symbol +:+ "(" +:+ Name g +:+ ")") in
  let fp := apply (ScalarFunction f) (VectorFunction f)
                  (ScalarFunction g) (VectorFunction g) in
  let f := Function_scalar f (fst fp) in
  let f := Function_vector f (snd fp) in
  f.

(** A comparison functor behind [function<ScalarType(ScalarType,ScalarType)>]. *)
Definition as_scalar (cmp : ScalarType -> ScalarType -> bool)
  : ScalarType -> ScalarType -> ScalarType :=
  fun x y => of_bool (cmp x y).

Definition operator_eq : NamedFunc -> NamedFunc -> NamedFunc :=
  through_setters "==" (fun sa va sb vb => ApplyOp sa va sb vb (as_scalar equal_to)).
Definition operator_ne : NamedFunc -> NamedFunc -> NamedFunc :=
  through_setters "!=" (fun sa va sb vb => ApplyOp sa va sb vb (as_scalar not_equal_to)).
Definition operator_gt : NamedFunc -> NamedFunc -> NamedFunc :=
  through_setters ">" (fun sa va sb vb => ApplyOp sa va sb vb (as_scalar greater)).
Definition operator_lt : NamedFunc -> NamedFunc -> NamedFunc :=
  through_setters "<" (fun sa va sb vb => ApplyOp sa va sb vb (as_scalar less)).
Definition operator_ge : NamedFunc -> NamedFunc -> NamedFunc :=
  through_setters ">=" (fun sa va sb vb => ApplyOp sa va sb vb (as_scalar greater_equal)).
Definition operator_le : NamedFunc -> NamedFunc -> NamedFunc :=
  through_setters "<=" (fun sa va sb vb => ApplyOp sa va sb vb (as_scalar less_equal)).
Definition operator_and : NamedFunc -> NamedFunc -> NamedFunc :=
  through_setters "&&" ApplyOp_logical_and.
Definition operator_or : NamedFunc -> NamedFunc -> NamedFunc :=
  through_setters "||" ApplyOp_logical_or.

(** *** [HavePass], on one vector and on a vector of vectors. *)
Fixpoint HavePass (v : VectorType) : bool :=
  match v with
  | [] => false
  | x :: v' => if to_bool x then true else HavePass v'
  end.

(** The inner loop, [n] iterations from [iv] on, left early once
    [this_pass] is false. *)
Fixpoint HavePass_inner (vv : list VectorType) (ix n iv : nat) (this_pass : bool)
  : Error + bool :=
  match n with
  | O => inr this_pass
  | S n' =>
      if this_pass then
        match vv !! iv with
        | None => inl IndexOutOfRangeError
        | Some v =>
            if (length v <=? ix)%nat then HavePass_inner vv ix n' (S iv) false
            else
              match v !! ix with
              | None => inl IndexOutOfRangeError
              | Some x =>
                  HavePass_inner vv ix n' (S iv)
                    (if negb (to_bool x) then false else this_pass)
              end
        end
      else inr this_pass
  end.

(** The outer loop, [n] iterations from [ix] on. *)
Fixpoint HavePass_outer (vv : list VectorType) (n ix : nat) : Error + bool :=
  match n with
  | O => inr false
  | S n' =>
      match HavePass_inner vv ix (length vv) 0 true with
      | inl e => inl e
      | inr this_pass =>
          if this_pass then inr true else HavePass_outer vv n' (S ix)
      end
  end.

Definition HavePass_vv (vv : list VectorType) : Error + bool :=
  if (length vv =? 0)%nat then inr false
  else
    match vv !! 0%nat with
    | None => inl IndexOutOfRangeError
    | Some v0 => HavePass_outer vv (length v0) 0
    end.

(** ** The binary operators as one family *)
Inductive BinaryOperator : Type :=
| OpPlus | OpMinus | OpMul | OpDiv | OpMod
| OpEq | OpNe | OpGt | OpLt | OpGe | OpLe.

Definition apply_operator (o : BinaryOperator) : NamedFunc -> NamedFunc -> NamedFunc :=
  match o with
  | OpPlus => operator_plus | OpMinus => operator_minus | OpMul => operator_mul
  | OpDiv => operator_div | OpMod => operator_mod
  | OpEq => operator_eq | OpNe => operator_ne | OpGt => operator_gt
  | OpLt => operator_lt | OpGe => operator_ge | OpLe => operator_le
  end.

(** What the operator computes on two numbers. *)
Definition op_c (o : BinaryOperator) : ScalarType -> ScalarType -> ScalarType :=
  match o with
  | OpPlus => plus | OpMinus => minus | OpMul => multiplies
  | OpDiv => divides | OpMod => fmod
  | OpEq => as_scalar equal_to | OpNe => as_scalar not_equal_to
  | OpGt => as_scalar greater | OpLt => as_scalar less
  | OpGe => as_scalar greater_equal | OpLe => as_scalar less_equal
  end.

Definition symbol (o : BinaryOperator) : string :=
  match o with
  | OpPlus => "+" | OpMinus => "-" | OpMul => "*" | OpDiv => "/" | OpMod => "%"
  | OpEq => "==" | OpNe => "!=" | OpGt => ">" | OpLt => "<"
  | OpGe => ">=" | OpLe => "<="
  end.

(** The shape predicates the statements use. *)
Definition scalar_shaped (f : NamedFunc) : Prop :=
  IsScalar f = true /\ IsVector f = false.
Definition vector_shaped (f : NamedFunc) : Prop :=
  IsScalar f = false /\ IsVector f = true.
Definition exactly_one (f : NamedFunc) : Prop :=
  xorb (IsScalar f) (IsVector f) = true.

(** An evaluation started in world [w] returns [a] and leaves world [w']. *)
Definition returns {A} (m : M A) (w : World) (a : A) (w' : World) : Prop :=
  m w = (inr a, w').

(** An evaluation started in world [w] throws [e] and leaves world [w']. *)
Definition throws {A} (m : M A) (w : World) (e : Error) (w' : World) : Prop :=
  m w = (inl e, w').

(** The short-circuit reading of scalar [A] && vector [B]: where [A] is
    falsy the result is that value repeated and the world is the one [A]
    left, [B] not having run. *)
Definition and_skips_vector_operand (A B : NamedFunc) (b : Baby) (w : World) : Prop :=
  forall sa w1,
    returns (GetScalar A b) w sa w1 -> to_bool sa = false ->
    exists n, returns (GetVector (operator_and A B) b) w (replicate n sa) w1.

(** The same for scalar [A] || vector [B] where [A] is truthy. *)
Definition or_skips_vector_operand (A B : NamedFunc) (b : Baby) (w : World) : Prop :=
  forall sa w1,
    returns (GetScalar A b) w sa w1 -> to_bool sa = true ->
    exists n, returns (GetVector (operator_or A B) b) w (replicate n (of_bool true)) w1.

(** The values the public interface builds: the constructors on a callable
    that is not empty and on a constant, and every operation on such values. *)
Inductive Constructed : NamedFunc -> Prop :=
| C_scalar name f : Constructed (NamedFunc_scalar name (Some f))
| C_vector name f : Constructed (NamedFunc_vector name (Some f))
| C_const x : Constructed (NamedFunc_const x)
| C_Name f name : Constructed f -> Constructed (Name_set f name)
| C_Function_scalar f g : Constructed f -> Constructed (Function_scalar f g)
| C_Function_vector f g : Constructed f -> Constructed (Function_vector f g)
| C_operator o f g :
    Constructed f -> Constructed g -> Constructed (apply_operator o f g)
| C_and f g : Constructed f -> Constructed g -> Constructed (operator_and f g)
| C_or f g : Constructed f -> Constructed g -> Constructed (operator_or f g)
| C_unary_plus f : Constructed f -> Constructed (operator_unary_plus f)
| C_unary_minus f : Constructed f -> Constructed (operator_unary_minus f)
| C_not f : Constructed f -> Constructed (operator_not f)
| C_index f g r :
    Constructed f -> Constructed g -> operator_index f g = inr r -> Constructed r.

(** The reading of the error design under which no fault belongs to the
    building of an expression: applying [operator[]] to well-formed operands
    always yields a value, its faults being left to evaluation. *)
Definition index_errors_only_at_evaluation : Prop :=
  forall this func : NamedFunc,
    exactly_one this -> exactly_one func ->
    exists r, operator_index this func = inr r.

(** The reading of the invariant under which whatever the two-argument
    constructor is handed, the value holds exactly one callable. *)
Definition constructor_yields_exactly_one : Prop :=
  forall (name : string) (function : option ScalarFunc),
    exactly_one (NamedFunc_scalar name function).

(** Two values a caller cannot tell apart: same name, same callables
    present, same evaluations on every record in every world. *)
Definition same_value (x y : NamedFunc) : Prop :=
  Name x = Name y /\
  IsScalar x = IsScalar y /\ IsVector x = IsVector y /\
  forall b w, GetScalar x b w = GetScalar y b w /\ GetVector x b w = GetVector y b w.

(** A name without spaces. *)
Definition clean (s : string) : Prop := ReplaceAll_space s = s.

(** Whether vector [v] has a truthy entry at index [ix]. *)
Definition passes_at (ix : nat) (v : VectorType) : bool :=
  match v !! ix with
  | Some x => to_bool x
  | None => false
  end.

End NamedFunc.

Notation "'let*' x ':=' m 'in' k" := (bind m (fun x => k))
  (at level 10, x name, m at level 100, k at level 200).

(** ** A concrete setting to run the model in

    Integer-valued scalars (division and remainder truncate towards zero, as
    [fmod] does), an event record with two branches, and a world that counts
    the calls of the instrumented evaluators below. *)
#[export] Instance Scalar_Z : Scalar Z := {|
  zero := 0%Z;
  of_bool := fun b => if b then 1%Z else 0%Z;
  to_bool := fun z => negb (z =? 0)%Z;
  to_size_t := fun z => Z.to_nat (z mod 2 ^ 64);
  plus := Z.add;
  minus := Z.sub;
  multiplies := Z.mul;
  divides := Z.quot;
  fmod := Z.rem;
  negate := Z.opp;
  equal_to := Z.eqb;
  not_equal_to := fun x y => negb (x =? y)%Z;
  greater := Z.gtb;
  less := Z.ltb;
  greater_equal := Z.geb;
  less_equal := Z.leb;
  ToString := pretty;
  to_bool_of_bool := fun b => match b with true => eq_refl | false => eq_refl end
|}.

(** Where no order is named, the concrete runs take that of a compiler that
    evaluates the arguments of a call from the last to the first. *)
#[export] Instance last_argument_first : ArgumentOrder := false.

Record Event : Type := { njets : Z; jets_pt : list Z }.

Definition Calls : Type := nat.

Definition NF : Type := @NamedFunc Z Event Calls.

(** Leaves: pure accessors, and accessors that count their calls. *)
Definition leaf_njets : NF :=
  NamedFunc_scalar "njets" (Some (fun b => ret (njets b))).
Definition leaf_jets_pt : NF :=
  NamedFunc_vector "jets_pt" (Some (fun b => ret (jets_pt b))).
Definition counted_njets : NF :=
  NamedFunc_scalar "njets" (Some (fun b w => (inr (njets b), S w))).
Definition counted_jets_pt : NF :=
  NamedFunc_vector "jets_pt" (Some (fun b w => (inr (jets_pt b), S w))).
Definition leaf_x : NF := NamedFunc_scalar "x" (Some (fun b => ret (njets b))).
Definition leaf_y : NF := NamedFunc_scalar "y" (Some (fun b => ret (njets b))).
Definition leaf_empty : NF := NamedFunc_scalar "x" None.
Definition leaf_spaced : NF :=
  NamedFunc_scalar "n jets" (Some (fun b => ret (njets b))).
Definition const_vector (name : string) (v : list Z) : NF :=
  NamedFunc_vector name (Some (fun _ => ret v)).

(** A scalar accessor that returns the count and increments it. *)
Definition tick : NF :=
  NamedFunc_scalar "tick" (Some (fun _ w => (inr (Z.of_nat w), S w))).

Definition event0 : Event := {| njets := 0; jets_pt := [10; 20; 30]%Z |}.
Definition event1 : Event := {| njets := 1; jets_pt := [10; 20; 30]%Z |}.
Definition event5 : Event := {| njets := 5; jets_pt := [10; 20; 30]%Z |}.

(** Accessors of a branch that is missing: they throw, and leave the count
    as it is. *)
Definition missing_scalar : NF :=
  NamedFunc_scalar "met" (Some (fun _ w => (inl (EvaluatorError "no branch met"), w))).
Definition missing_vector : NF :=
  NamedFunc_vector "mus_pt"
    (Some (fun _ w => (inl (EvaluatorError "no branch mus_pt"), w))).

(** * Properties *)

Section Properties.
Context {ScalarType : Type} `{Scalar ScalarType}.
Context {Baby World : Type}.
Context {order : ArgumentOrder}.

Local Abbreviation NamedFunc := (@NamedFunc ScalarType Baby World).
Local Abbreviation M := (@M World).
Local Abbreviation VectorType := (list ScalarType).
Local Abbreviation ScalarFunc := (@ScalarFunc ScalarType Baby World).
Local Abbreviation VectorFunc := (@VectorFunc ScalarType Baby World).

(** ** Shapes *)

Lemma exactly_one_cases (f : NamedFunc) :
  exactly_one f <-> scalar_shaped f \/ vector_shaped f.
Proof.
  unfold exactly_one, scalar_shaped, vector_shaped.
  destruct (IsScalar f), (IsVector f); simpl; intuition congruence.
Qed.

Lemma scalar_shaped_inv (f : NamedFunc) :
  scalar_shaped f ->
  exists g, scalar_func_ f = Some g /\ vector_func_ f = None.
Proof.
  destruct f as [n [g|] [v|]]; intros [Hs Hv]; try discriminate.
  now exists g.
Qed.

Lemma vector_shaped_inv (f : NamedFunc) :
  vector_shaped f ->
  exists g, scalar_func_ f = None /\ vector_func_ f = Some g.
Proof.
  destruct f as [n [g|] [v|]]; intros [Hs Hv]; try discriminate.
  now exists v.
Qed.

Ltac shape_inv :=
  repeat match goal with
  | Hs : scalar_shaped ?f |- _ =>
      let g := fresh "sf" in
      let E1 := fresh "Es" in
      let E2 := fresh "Ev" in
      destruct (scalar_shaped_inv f Hs) as (g & E1 & E2); clear Hs
  | Hs : vector_shaped ?f |- _ =>
      let g := fresh "vf" in
      let E1 := fresh "Es" in
      let E2 := fresh "Ev" in
      destruct (vector_shaped_inv f Hs) as (g & E1 & E2); clear Hs
  end.

Ltac rewrite_funcs :=
  unfold scalar_shaped, vector_shaped, IsScalar, IsVector,
         GetScalar, GetVector, returns, throws;
  repeat match goal with
  | E : scalar_func_ _ = _ |- _ => rewrite !E; clear E
  | E : vector_func_ _ = _ |- _ => rewrite !E; clear E
  end.

(** ** Loops that fill a vector slot by slot *)

Lemma for_loop_S {St} (n i : nat) (body : nat -> St -> M St) (s : St) (w : World) :
  for_loop (S n) i body s w
  = match body i s w with
    | (inr s', w') => for_loop n (S i) body s' w'
    | (inl e, w') => (inl e, w')
    end.
Proof. reflexivity. Qed.

Lemma for_loop_fill (tgt : VectorType) (body : nat -> VectorType -> M VectorType) :
  (forall i x vo w,
      tgt !! i = Some x -> length vo = length tgt ->
      body i vo w = (inr (<[i:=x]> vo), w)) ->
  forall n i vo w,
    i + n = length tgt -> length vo = length tgt ->
    for_loop n i body vo w = (inr (take i vo ++ drop i tgt), w).
Proof.
  intros Hbody n. induction n as [|n IH]; intros i vo w Hn Hlen; simpl.
  - rewrite Nat.add_0_r in Hn. subst i.
    rewrite take_ge by lia. rewrite drop_ge by lia. now rewrite app_nil_r.
  - destruct (lookup_lt_is_Some_2 tgt i) as [x Hx]; [lia|].
    unfold bind. rewrite (Hbody i x vo w Hx Hlen).
    rewrite IH; [|lia|now rewrite length_insert].
    rewrite (drop_S tgt x i Hx).
    rewrite (take_S_r (<[i:=x]> vo) i x) by (apply list_lookup_insert_eq; lia).
    rewrite take_insert_ge by lia. now rewrite <- app_assoc.
Qed.

Lemma for_loop_fill_all (tgt vo : VectorType)
    (body : nat -> VectorType -> M VectorType) (w : World) :
  (forall i x vo w,
      tgt !! i = Some x -> length vo = length tgt ->
      body i vo w = (inr (<[i:=x]> vo), w)) ->
  length vo = length tgt ->
  for_loop (length vo) 0 body vo w = (inr tgt, w).
Proof.
  intros Hbody Hlen.
  rewrite (for_loop_fill tgt body Hbody (length vo) 0 vo w); [|lia|exact Hlen].
  now rewrite take_0, drop_0.
Qed.

Lemma at_Some (v : VectorType) i x (w : World) :
  v !! i = Some x -> at_ v i w = (inr x, w).
Proof. intros E. unfold at_. now rewrite E. Qed.

Lemma assign_at_lt (v : VectorType) i x (w : World) :
  i < length v -> assign_at v i x w = (inr (<[i:=x]> v), w).
Proof. intros Hi. unfold assign_at. now rewrite decide_True. Qed.

(** ** The generic [ApplyOp], shape by shape *)

Section Generic.
Variable op : ScalarType -> ScalarType -> ScalarType.

Lemma ApplyOp_scalar_scalar (sfa sfb : ScalarFunc) (vfa vfb : option VectorFunc) :
  ApplyOp (Some sfa) vfa (Some sfb) vfb op
  = (Some (fun b =>
             if left_operand_first
             then let* x := sfa b in let* y := sfb b in ret (op x y)
             else let* y := sfb b in let* x := sfa b in ret (op x y)), None).
Proof. reflexivity. Qed.

Lemma ApplyOp_scalar_vector (sfa : ScalarFunc) (vfa : option VectorFunc)
    (vfb : VectorFunc) :
  exists g, ApplyOp (Some sfa) vfa None (Some vfb) op = (None, Some g) /\
    forall b w, g b w = (let* sa := sfa b in let* vb := vfb b in ret (map (op sa) vb)) w.
Proof.
  eexists; split; [reflexivity|]. intros b w. unfold bind.
  destruct (sfa b w) as [[e|sa] w1]; [reflexivity|].
  destruct (vfb b w1) as [[e|vb] w2]; [reflexivity|]. cbv zeta.
  apply for_loop_fill_all.
  - intros i x vo w' Hx Hlen. rewrite length_map in Hlen.
    apply list_lookup_fmap_Some in Hx as (y & -> & Hy).
    rewrite (at_Some _ _ _ _ Hy). apply assign_at_lt.
    rewrite Hlen. now apply lookup_lt_Some in Hy.
  - now rewrite length_replicate, length_map.
Qed.

Lemma ApplyOp_vector_scalar (vfa : VectorFunc) (sfb : ScalarFunc)
    (vfb : option VectorFunc) :
  exists g, ApplyOp None (Some vfa) (Some sfb) vfb op = (None, Some g) /\
    forall b w, g b w
      = (let* va := vfa b in let* sb := sfb b in ret (map (fun x => op x sb) va)) w.
Proof.
  eexists; split; [reflexivity|]. intros b w. unfold bind.
  destruct (vfa b w) as [[e|va] w1]; [reflexivity|].
  destruct (sfb b w1) as [[e|sb] w2]; [reflexivity|]. cbv zeta.
  apply for_loop_fill_all.
  - intros i x vo w' Hx Hlen. rewrite length_map in Hlen.
    apply list_lookup_fmap_Some in Hx as (y & -> & Hy).
    rewrite (at_Some _ _ _ _ Hy). apply assign_at_lt.
    rewrite Hlen. now apply lookup_lt_Some in Hy.
  - now rewrite length_replicate, length_map.
Qed.

Lemma ApplyOp_vector_vector (vfa vfb : VectorFunc) :
  exists g, ApplyOp None (Some vfa) None (Some vfb) op = (None, Some g) /\
    forall b w, g b w
      = (let* va := vfa b in let* vb := vfb b in ret (zip_with op va vb)) w.
Proof.
  eexists; split; [reflexivity|]. intros b w. unfold bind.
  destruct (vfa b w) as [[e|va] w1]; [reflexivity|].
  destruct (vfb b w1) as [[e|vb] w2]; [reflexivity|]. cbv zeta.
  apply for_loop_fill_all.
  - intros i x vo w' Hx Hlen. rewrite length_zip_with in Hlen.
    apply lookup_zip_with_Some in Hx as (xa & xb & -> & Ha & Hb).
    rewrite (at_Some _ _ _ _ Ha).
    rewrite (at_Some _ _ _ _ Hb). apply assign_at_lt.
    rewrite Hlen. apply lookup_lt_Some in Ha, Hb. lia.
  - rewrite length_replicate, length_zip_with.
    destruct (Nat.ltb_spec (length vb) (length va)); lia.
Qed.

End Generic.

(** ** The eleven generic operators route their operands to [ApplyOp] *)

Lemma apply_operator_funcs (o : BinaryOperator) (A B : NamedFunc) :
  exactly_one A -> exactly_one B ->
  let fp := ApplyOp (scalar_func_ A) (vector_func_ A)
                    (scalar_func_ B) (vector_func_ B) (op_c o) in
  scalar_func_ (apply_operator o A B) = fst fp /\
  vector_func_ (apply_operator o A B) = snd fp.
Proof.
  destruct A as [nA [sA|] [vA|]], B as [nB [sB|] [vB|]];
    unfold exactly_one; simpl; intros HA HB; try discriminate;
    destruct o; split; reflexivity.
Qed.

Lemma valid_Some {A} (x : A) : valid (Some x) = true.
Proof. reflexivity. Qed.

(** C1: for each of the eleven generic binary operators and operands that
    each hold exactly one callable, the result follows the shape table on
    every record: scalar/scalar gives the scalar [op(a,b)], the two
    callables having run in the order the compiler chose for the arguments
    of the call, whichever it is; scalar/vector a vector as long as [b]'s
    with entries [op(a, b[i])]; vector/scalar a vector as long as [a]'s with
    entries [op(a[i], b)]; vector/vector a vector of the smaller of the two
    lengths with entries [op(a[i], b[i])]. *)
Theorem binary_operator_shape_table
    (o : BinaryOperator) (A B : NamedFunc) (b : Baby) (w : World) :
  exactly_one A -> exactly_one B ->
  (scalar_shaped A -> scalar_shaped B ->
     scalar_shaped (apply_operator o A B) /\
     (left_operand_first = true ->
      forall x w1 y w2,
        returns (GetScalar A b) w x w1 -> returns (GetScalar B b) w1 y w2 ->
        returns (GetScalar (apply_operator o A B) b) w (op_c o x y) w2) /\
     (left_operand_first = false ->
      forall y w1 x w2,
        returns (GetScalar B b) w y w1 -> returns (GetScalar A b) w1 x w2 ->
        returns (GetScalar (apply_operator o A B) b) w (op_c o x y) w2))
  /\
  (scalar_shaped A -> vector_shaped B ->
     vector_shaped (apply_operator o A B) /\
     forall sa w1 vb w2,
       returns (GetScalar A b) w sa w1 -> returns (GetVector B b) w1 vb w2 ->
       exists vo,
         returns (GetVector (apply_operator o A B) b) w vo w2 /\
         length vo = length vb /\
         forall i y, vb !! i = Some y -> vo !! i = Some (op_c o sa y))
  /\
  (vector_shaped A -> scalar_shaped B ->
     vector_shaped (apply_operator o A B) /\
     forall va w1 sb w2,
       returns (GetVector A b) w va w1 -> returns (GetScalar B b) w1 sb w2 ->
       exists vo,
         returns (GetVector (apply_operator o A B) b) w vo w2 /\
         length vo = length va /\
         forall i x, va !! i = Some x -> vo !! i = Some (op_c o x sb))
  /\
  (vector_shaped A -> vector_shaped B ->
     vector_shaped (apply_operator o A B) /\
     forall va w1 vb w2,
       returns (GetVector A b) w va w1 -> returns (GetVector B b) w1 vb w2 ->
       exists vo,
         returns (GetVector (apply_operator o A B) b) w vo w2 /\
         length vo = Nat.min (length va) (length vb) /\
         forall i x y,
           va !! i = Some x -> vb !! i = Some y -> vo !! i = Some (op_c o x y)).
Proof.
  intros HA HB.
  destruct (apply_operator_funcs o A B HA HB) as [Es Ev]. clear HA HB.
  split; [|split; [|split]]; intros SA SB;
    unfold scalar_shaped, vector_shaped, IsScalar, IsVector,
           GetScalar, GetVector, returns;
    rewrite ?Es, ?Ev; clear Es Ev; shape_inv; rewrite_funcs.
  - rewrite ApplyOp_scalar_scalar. split; [split; reflexivity|].
    cbn [fst call]. split.
    + intros Ho x w1 y w2 Hx Hy. rewrite Ho. unfold bind. now rewrite Hx, Hy.
    + intros Ho y w1 x w2 Hy Hx. rewrite Ho. unfold bind. now rewrite Hy, Hx.
  - match goal with |- context [ApplyOp (Some ?a) None None (Some ?c) _] =>
      destruct (ApplyOp_scalar_vector (op_c o) a None c) as (g & -> & Hg) end.
    split; [split; reflexivity|]. intros sa w1 vb w2 Hs Hv. simpl in *.
    exists (map (op_c o sa) vb). rewrite Hg. unfold bind. rewrite Hs, Hv.
    split; [reflexivity|]. split; [now rewrite length_map|].
    intros i y Hy. now apply list_lookup_fmap_Some_2.
  - match goal with |- context [ApplyOp None (Some ?a) (Some ?c) None _] =>
      destruct (ApplyOp_vector_scalar (op_c o) a c None) as (g & -> & Hg) end.
    split; [split; reflexivity|]. intros va w1 sb w2 Hv Hs. simpl in *.
    exists (map (fun x => op_c o x sb) va). rewrite Hg. unfold bind. rewrite Hv, Hs.
    split; [reflexivity|]. split; [now rewrite length_map|].
    intros i x Hx.
    now apply (list_lookup_fmap_Some_2 (fun x => op_c o x sb)).
  - match goal with |- context [ApplyOp None (Some ?a) None (Some ?c) _] =>
      destruct (ApplyOp_vector_vector (op_c o) a c) as (g & -> & Hg) end.
    split; [split; reflexivity|]. intros va w1 vb w2 Ha Hb. simpl in *.
    exists (zip_with (op_c o) va vb). rewrite Hg. unfold bind. rewrite Ha, Hb.
    split; [reflexivity|]. split; [now rewrite length_zip_with|].
    intros i x y Hx Hy. apply lookup_zip_with_Some. eauto.
Qed.

(** ** Logical operators *)

Lemma logical_funcs (A B : NamedFunc) :
  exactly_one A -> exactly_one B ->
  (scalar_func_ (operator_and A B)
     = fst (ApplyOp_logical_and (scalar_func_ A) (vector_func_ A)
                                (scalar_func_ B) (vector_func_ B)) /\
   vector_func_ (operator_and A B)
     = snd (ApplyOp_logical_and (scalar_func_ A) (vector_func_ A)
                                (scalar_func_ B) (vector_func_ B))) /\
  (scalar_func_ (operator_or A B)
     = fst (ApplyOp_logical_or (scalar_func_ A) (vector_func_ A)
                               (scalar_func_ B) (vector_func_ B)) /\
   vector_func_ (operator_or A B)
     = snd (ApplyOp_logical_or (scalar_func_ A) (vector_func_ A)
                               (scalar_func_ B) (vector_func_ B))).
Proof.
  destruct A as [nA [sA|] [vA|]], B as [nB [sB|] [vB|]];
    unfold exactly_one; simpl; intros HA HB; try discriminate;
    repeat split; reflexivity.
Qed.

Lemma scalar_shaped_exactly_one (f : NamedFunc) : scalar_shaped f -> exactly_one f.
Proof. intros Hf. apply exactly_one_cases. now left. Qed.

Lemma vector_shaped_exactly_one (f : NamedFunc) : vector_shaped f -> exactly_one f.
Proof. intros Hf. apply exactly_one_cases. now right. Qed.

Lemma take_insert_drop {A} (vo tgt : list A) i x :
  tgt !! i = Some x -> i < length vo ->
  take (S i) (<[i:=x]> vo) ++ drop (S i) tgt = take i vo ++ drop i tgt.
Proof.
  intros Hx Hi. rewrite (drop_S tgt x i Hx).
  rewrite (take_S_r (<[i:=x]> vo) i x) by (now apply list_lookup_insert_eq).
  rewrite take_insert_ge by lia. now rewrite <- app_assoc.
Qed.

Section VectorScalar.
Variables (va : VectorType) (sfb : ScalarFunc) (b : Baby).

(** *** One turn of the [&&] loop, by the state of the cache. *)
Lemma and_step_evaluated i vo sb x w :
  va !! i = Some x -> i < length vo ->
  and_step va sfb b i (vo, true, sb) w
  = (inr (<[i:=of_bool (to_bool x && to_bool sb)]> vo, true, sb), w).
Proof.
  intros Hx Hi. unfold and_step, bind. simpl.
  rewrite (at_Some _ _ _ _ Hx). now rewrite assign_at_lt.
Qed.

Lemma and_step_skip i vo sb0 x w :
  va !! i = Some x -> to_bool x = false -> i < length vo ->
  and_step va sfb b i (vo, false, sb0) w
  = (inr (<[i:=of_bool false]> vo, false, sb0), w).
Proof.
  intros Hx Hf Hi. unfold and_step, bind. simpl. rewrite (at_Some _ _ _ _ Hx).
  rewrite Hf. simpl. rewrite (at_Some _ _ _ _ Hx), Hf. simpl.
  now rewrite assign_at_lt.
Qed.

Lemma and_step_trigger i vo sb0 x w :
  va !! i = Some x -> to_bool x = true -> i < length vo ->
  and_step va sfb b i (vo, false, sb0) w
  = match sfb b w with
    | (inr sb, w') => (inr (<[i:=of_bool (to_bool x && to_bool sb)]> vo, true, sb), w')
    | (inl e, w') => (inl e, w')
    end.
Proof.
  intros Hx Ht Hi. unfold and_step, bind. simpl. rewrite (at_Some _ _ _ _ Hx).
  rewrite Ht. simpl. destruct (sfb b w) as [[e|sb] w']; [reflexivity|]. simpl.
  rewrite (at_Some _ _ _ _ Hx), Ht. now rewrite assign_at_lt.
Qed.

(** Once [sb] is cached the loop only fills [vo]. *)
Lemma and_loop_evaluated sb n : forall i vo w,
  i + n = length va -> length vo = length va ->
  for_loop n i (and_step va sfb b) (vo, true, sb) w
  = (inr (take i vo ++ drop i (map (fun x => of_bool (to_bool x && to_bool sb)) va),
          true, sb), w).
Proof.
  induction n as [|n IH]; intros i vo w Hn Hlen.
  - simpl. rewrite take_ge by lia. rewrite drop_ge by (rewrite length_map; lia).
    now rewrite app_nil_r.
  - destruct (lookup_lt_is_Some_2 va i) as [x Hx]; [lia|].
    rewrite for_loop_S, (and_step_evaluated i vo sb x w Hx) by lia.
    rewrite IH; [|lia|now rewrite length_insert].
    rewrite take_insert_drop; [reflexivity| |lia].
    now apply (list_lookup_fmap_Some_2 (fun x => of_bool (to_bool x && to_bool sb))).
Qed.

(** Until a truthy entry shows up [sfb] is not called; at the first one it
    is called, once. *)
Lemma and_loop_pending sb0 n : forall i vo w,
  i + n = length va -> length vo = length va ->
  for_loop n i (and_step va sfb b) (vo, false, sb0) w
  = if existsb to_bool (drop i va)
    then match sfb b w with
         | (inr sb, w') =>
             (inr (take i vo
                   ++ drop i (map (fun x => of_bool (to_bool x && to_bool sb)) va),
                   true, sb), w')
         | (inl e, w') => (inl e, w')
         end
    else (inr (take i vo ++ drop i (map (fun _ => of_bool false) va), false, sb0), w).
Proof.
  induction n as [|n IH]; intros i vo w Hn Hlen.
  - simpl. rewrite (drop_ge va) by lia. simpl.
    rewrite take_ge by lia. rewrite drop_ge by (rewrite length_map; lia).
    now rewrite app_nil_r.
  - destruct (lookup_lt_is_Some_2 va i) as [x Hx]; [lia|].
    rewrite for_loop_S, (drop_S va x i Hx). cbn [existsb].
    destruct (to_bool x) eqn:Hb; cbn [orb].
    + rewrite (and_step_trigger i vo sb0 x w Hx Hb) by lia.
      destruct (sfb b w) as [[e|sb] w']; [reflexivity|].
      rewrite and_loop_evaluated; [|lia|now rewrite length_insert].
      rewrite take_insert_drop; [reflexivity| |lia].
      now apply (list_lookup_fmap_Some_2 (fun x => of_bool (to_bool x && to_bool sb))).
    + rewrite (and_step_skip i vo sb0 x w Hx Hb) by lia.
      rewrite IH; [|lia|now rewrite length_insert].
      assert (Hsb : forall sb,
                 map (fun x => of_bool (to_bool x && to_bool sb)) va !! i
                 = Some (of_bool false)).
      { intros sb. rewrite list_lookup_fmap, Hx. simpl. now rewrite Hb. }
      destruct (existsb to_bool (drop (S i) va)).
      * destruct (sfb b w) as [[e|sb] w']; [reflexivity|].
        rewrite take_insert_drop; [reflexivity|apply Hsb|lia].
      * rewrite take_insert_drop; [reflexivity| |lia].
        now rewrite list_lookup_fmap, Hx.
Qed.

(** *** One turn of the [||] loop, by the state of the cache. *)
Lemma or_step_evaluated i vo sb x w :
  va !! i = Some x -> i < length vo ->
  or_step va sfb b i (vo, true, sb) w
  = (inr (<[i:=of_bool (to_bool x || to_bool sb)]> vo, true, sb), w).
Proof.
  intros Hx Hi. unfold or_step, bind. simpl.
  rewrite (at_Some _ _ _ _ Hx). now rewrite assign_at_lt.
Qed.

Lemma or_step_skip i vo sb0 x w :
  va !! i = Some x -> to_bool x = true -> i < length vo ->
  or_step va sfb b i (vo, false, sb0) w
  = (inr (<[i:=of_bool true]> vo, false, sb0), w).
Proof.
  intros Hx Hf Hi. unfold or_step, bind. simpl. rewrite (at_Some _ _ _ _ Hx).
  rewrite Hf. simpl. rewrite (at_Some _ _ _ _ Hx), Hf. simpl.
  now rewrite assign_at_lt.
Qed.

Lemma or_step_trigger i vo sb0 x w :
  va !! i = Some x -> to_bool x = false -> i < length vo ->
  or_step va sfb b i (vo, false, sb0) w
  = match sfb b w with
    | (inr sb, w') => (inr (<[i:=of_bool (to_bool x || to_bool sb)]> vo, true, sb), w')
    | (inl e, w') => (inl e, w')
    end.
Proof.
  intros Hx Ht Hi. unfold or_step, bind. simpl. rewrite (at_Some _ _ _ _ Hx).
  rewrite Ht. simpl. destruct (sfb b w) as [[e|sb] w']; [reflexivity|]. simpl.
  rewrite (at_Some _ _ _ _ Hx), Ht. now rewrite assign_at_lt.
Qed.

Lemma or_loop_evaluated sb n : forall i vo w,
  i + n = length va -> length vo = length va ->
  for_loop n i (or_step va sfb b) (vo, true, sb) w
  = (inr (take i vo ++ drop i (map (fun x => of_bool (to_bool x || to_bool sb)) va),
          true, sb), w).
Proof.
  induction n as [|n IH]; intros i vo w Hn Hlen.
  - simpl. rewrite take_ge by lia. rewrite drop_ge by (rewrite length_map; lia).
    now rewrite app_nil_r.
  - destruct (lookup_lt_is_Some_2 va i) as [x Hx]; [lia|].
    rewrite for_loop_S, (or_step_evaluated i vo sb x w Hx) by lia.
    rewrite IH; [|lia|now rewrite length_insert].
    rewrite take_insert_drop; [reflexivity| |lia].
    now apply (list_lookup_fmap_Some_2 (fun x => of_bool (to_bool x || to_bool sb))).
Qed.

(** Until a falsy entry shows up [sfb] is not called; at the first one it is
    called, once. *)
Lemma or_loop_pending sb0 n : forall i vo w,
  i + n = length va -> length vo = length va ->
  for_loop n i (or_step va sfb b) (vo, false, sb0) w
  = if existsb (fun x => negb (to_bool x)) (drop i va)
    then match sfb b w with
         | (inr sb, w') =>
             (inr (take i vo
                   ++ drop i (map (fun x => of_bool (to_bool x || to_bool sb)) va),
                   true, sb), w')
         | (inl e, w') => (inl e, w')
         end
    else (inr (take i vo ++ drop i (map (fun _ => of_bool true) va), false, sb0), w).
Proof.
  induction n as [|n IH]; intros i vo w Hn Hlen.
  - simpl. rewrite (drop_ge va) by lia. simpl.
    rewrite take_ge by lia. rewrite drop_ge by (rewrite length_map; lia).
    now rewrite app_nil_r.
  - destruct (lookup_lt_is_Some_2 va i) as [x Hx]; [lia|].
    rewrite for_loop_S, (drop_S va x i Hx). cbn [existsb].
    destruct (to_bool x) eqn:Hb; cbn [negb orb].
    + rewrite (or_step_skip i vo sb0 x w Hx Hb) by lia.
      rewrite IH; [|lia|now rewrite length_insert].
      assert (Hsb : forall sb,
                 map (fun x => of_bool (to_bool x || to_bool sb)) va !! i
                 = Some (of_bool true)).
      { intros sb. rewrite list_lookup_fmap, Hx. simpl. now rewrite Hb. }
      destruct (existsb (fun x => negb (to_bool x)) (drop (S i) va)).
      * destruct (sfb b w) as [[e|sb] w']; [reflexivity|].
        rewrite take_insert_drop; [reflexivity|apply Hsb|lia].
      * rewrite take_insert_drop; [reflexivity| |lia].
        now rewrite list_lookup_fmap, Hx.
    + rewrite (or_step_trigger i vo sb0 x w Hx Hb) by lia.
      destruct (sfb b w) as [[e|sb] w']; [reflexivity|].
      rewrite or_loop_evaluated; [|lia|now rewrite length_insert].
      rewrite take_insert_drop; [reflexivity| |lia].
      now apply (list_lookup_fmap_Some_2 (fun x => of_bool (to_bool x || to_bool sb))).
Qed.

End VectorScalar.

(** An entry of [A && B] is truthy exactly when both sides are, and an entry
    of [A || B] when one is: a falsy entry of [A] gives a falsy entry. *)
Lemma logical_entry_truth (x sb : ScalarType) :
  to_bool (of_bool (to_bool x && to_bool sb)) = to_bool x && to_bool sb /\
  to_bool (of_bool (to_bool x || to_bool sb)) = to_bool x || to_bool sb.
Proof. split; apply to_bool_of_bool. Qed.

(** What the vector/scalar callables of [&&] and [||] compute. *)
Lemma ApplyOp_logical_and_vector_scalar (vfa : VectorFunc) (sfb : ScalarFunc)
    (vfb : option VectorFunc) :
  exists g, ApplyOp_logical_and None (Some vfa) (Some sfb) vfb = (None, Some g) /\
    forall b w, g b w
      = (let* va := vfa b in
         if existsb to_bool va
         then let* sb := sfb b in
              ret (map (fun x => of_bool (to_bool x && to_bool sb)) va)
         else ret (map (fun _ => of_bool false) va)) w.
Proof.
  eexists; split; [reflexivity|]. intros b w. unfold bind at 1 3.
  destruct (vfa b w) as [[e|va] w1]; [reflexivity|]. cbv zeta.
  unfold bind at 1.
  rewrite and_loop_pending;
    [|rewrite length_replicate; lia|now rewrite length_replicate].
  rewrite drop_0, take_0. simpl.
  destruct (existsb to_bool va); [|reflexivity].
  unfold bind. now destruct (sfb b w1) as [[e|sb] w2].
Qed.

Lemma ApplyOp_logical_or_vector_scalar (vfa : VectorFunc) (sfb : ScalarFunc)
    (vfb : option VectorFunc) :
  exists g, ApplyOp_logical_or None (Some vfa) (Some sfb) vfb = (None, Some g) /\
    forall b w, g b w
      = (let* va := vfa b in
         if existsb (fun x => negb (to_bool x)) va
         then let* sb := sfb b in
              ret (map (fun x => of_bool (to_bool x || to_bool sb)) va)
         else ret (map (fun _ => of_bool true) va)) w.
Proof.
  eexists; split; [reflexivity|]. intros b w. unfold bind at 1 3.
  destruct (vfa b w) as [[e|va] w1]; [reflexivity|]. cbv zeta.
  unfold bind at 1.
  rewrite or_loop_pending;
    [|rewrite length_replicate; lia|now rewrite length_replicate].
  rewrite drop_0, take_0. simpl.
  destruct (existsb (fun x => negb (to_bool x)) va); [|reflexivity].
  unfold bind. now destruct (sfb b w1) as [[e|sb] w2].
Qed.

(** C2, as the code has it: for scalar [A] and vector [B], [A && B] and
    [A || B] are vectors, and on every record [B]'s callable runs exactly
    once, after [A]'s, whatever [A] returned.  Where [A] is falsy, [A && B]
    is a vector of [false] as long as [B]'s result; where [A] is truthy it
    is [B]'s result.  Where [A] is truthy, [A || B] is a vector of [true] as
    long as [B]'s result; where [A] is falsy it is [B]'s result.  A throw of
    [B] is a throw of the whole, also on the short-circuit branch. *)
Theorem logical_scalar_vector_runs_operand
    (A B : NamedFunc) (b : Baby) (w : World) :
  scalar_shaped A -> vector_shaped B ->
  (vector_shaped (operator_and A B) /\ vector_shaped (operator_or A B))
  /\
  (forall sa w1 vb w2,
      returns (GetScalar A b) w sa w1 -> returns (GetVector B b) w1 vb w2 ->
      returns (GetVector (operator_and A B) b) w
        (if to_bool sa then vb else replicate (length vb) (of_bool false)) w2 /\
      returns (GetVector (operator_or A B) b) w
        (if to_bool sa then replicate (length vb) (of_bool true) else vb) w2)
  /\
  (forall sa w1 e w2,
      returns (GetScalar A b) w sa w1 -> throws (GetVector B b) w1 e w2 ->
      throws (GetVector (operator_and A B) b) w e w2 /\
      throws (GetVector (operator_or A B) b) w e w2).
Proof.
  intros SA SB.
  destruct (logical_funcs A B (scalar_shaped_exactly_one A SA)
                              (vector_shaped_exactly_one B SB))
    as [[Eas Eav] [Eos Eov]].
  unfold scalar_shaped, vector_shaped, IsScalar, IsVector,
         GetScalar, GetVector, returns, throws in *.
  rewrite Eas, Eav, Eos, Eov. clear Eas Eav Eos Eov.
  destruct A as [nA [sA|] [vA|]]; simpl in SA; destruct SA; try discriminate.
  destruct B as [nB [sB|] [vB|]]; simpl in SB; destruct SB; try discriminate.
  simpl. split; [auto|]. split.
  - intros sa w1 vb w2 Ha Hb. unfold bind. rewrite Ha.
    destruct (to_bool sa); simpl; now rewrite Hb.
  - intros sa w1 e w2 Ha Hb. unfold bind. rewrite Ha.
    destruct (to_bool sa); simpl; now rewrite Hb.
Qed.

(** C3: for vector [A] and scalar [B], [A && B] is a vector as long as
    [A]'s result whose entry [i] is [A[i] && B].  [B]'s callable runs at
    most once per call: not at all when no entry of [A] is truthy (every
    entry of the result is then [false]), and once, in the world [A] left,
    when some entry is truthy.  [A || B] mirrors this: [B] does not run when
    no entry of [A] is falsy (every entry is then [true]), and runs once
    otherwise, entry [i] being [A[i] || B]. *)
Theorem logical_vector_scalar_runs_operand_once
    (A B : NamedFunc) (b : Baby) (w : World) :
  vector_shaped A -> scalar_shaped B ->
  (vector_shaped (operator_and A B) /\ vector_shaped (operator_or A B))
  /\
  (forall va w1,
      returns (GetVector A b) w va w1 ->
      (existsb to_bool va = false ->
         returns (GetVector (operator_and A B) b) w
           (map (fun _ => of_bool false) va) w1)
      /\
      (forall sb w2,
         existsb to_bool va = true -> returns (GetScalar B b) w1 sb w2 ->
         returns (GetVector (operator_and A B) b) w
           (map (fun x => of_bool (to_bool x && to_bool sb)) va) w2)
      /\
      (existsb (fun x => negb (to_bool x)) va = false ->
         returns (GetVector (operator_or A B) b) w
           (map (fun _ => of_bool true) va) w1)
      /\
      (forall sb w2,
         existsb (fun x => negb (to_bool x)) va = true ->
         returns (GetScalar B b) w1 sb w2 ->
         returns (GetVector (operator_or A B) b) w
           (map (fun x => of_bool (to_bool x || to_bool sb)) va) w2)).
Proof.
  intros SA SB.
  destruct (logical_funcs A B (vector_shaped_exactly_one A SA)
                              (scalar_shaped_exactly_one B SB))
    as [[Eas Eav] [Eos Eov]].
  unfold scalar_shaped, vector_shaped, IsScalar, IsVector,
         GetScalar, GetVector, returns in *.
  rewrite Eas, Eav, Eos, Eov. clear Eas Eav Eos Eov.
  destruct A as [nA [sA|] [vA|]]; simpl in SA; destruct SA; try discriminate.
  destruct B as [nB [sB|] [vB|]]; simpl in SB; destruct SB; try discriminate.
  cbn [scalar_func_ vector_func_].
  destruct (ApplyOp_logical_and_vector_scalar vA sB None) as (ga & -> & Hga).
  destruct (ApplyOp_logical_or_vector_scalar vA sB None) as (go & -> & Hgo).
  simpl. split; [auto|].
  intros va w1 Ha. rewrite Hga, Hgo. unfold bind. rewrite Ha.
  split; [|split; [|split]].
  - now intros ->.
  - intros sb w2 -> Hb. now rewrite Hb.
  - now intros ->.
  - intros sb w2 -> Hb. now rewrite Hb.
Qed.

(** ** The exactly-one invariant *)

Lemma apply_operator_exactly_one (o : BinaryOperator) (A B : NamedFunc) :
  exactly_one A -> exactly_one B -> exactly_one (apply_operator o A B).
Proof.
  destruct A as [nA [sA|] [vA|]], B as [nB [sB|] [vB|]];
    unfold exactly_one; simpl; intros HA HB; try discriminate;
    destruct o; reflexivity.
Qed.

Lemma logical_exactly_one (A B : NamedFunc) :
  exactly_one A -> exactly_one B ->
  exactly_one (operator_and A B) /\ exactly_one (operator_or A B).
Proof.
  destruct A as [nA [sA|] [vA|]], B as [nB [sB|] [vB|]];
    unfold exactly_one; simpl; intros HA HB; try discriminate;
    split; reflexivity.
Qed.

Lemma unary_shapes (f : NamedFunc) :
  (IsScalar (operator_unary_plus f) = IsScalar f /\
   IsVector (operator_unary_plus f) = IsVector f) /\
  (exactly_one f ->
   (IsScalar (operator_unary_minus f) = IsScalar f /\
    IsVector (operator_unary_minus f) = IsVector f) /\
   (IsScalar (operator_not f) = IsScalar f /\
    IsVector (operator_not f) = IsVector f)).
Proof.
  destruct f as [n [s|] [v|]]; unfold exactly_one; simpl;
    (split; [split; reflexivity|]); intros Hf; try discriminate;
    repeat split; reflexivity.
Qed.

Lemma Function_scalar_Some (this : NamedFunc) (f : ScalarFunc) :
  scalar_shaped (Function_scalar this (Some f)).
Proof. split; reflexivity. Qed.

Lemma Function_vector_Some (this : NamedFunc) (f : VectorFunc) :
  vector_shaped (Function_vector this (Some f)).
Proof. split; reflexivity. Qed.

(** The guards of [operator[]] and what it builds past them. *)
Lemma operator_index_guard (this func : NamedFunc) :
  IsScalar this = true \/ IsVector func = true ->
  exists msg, operator_index this func = inl (ShapeMismatchError msg).
Proof.
  unfold operator_index, ERROR. intros [Ht|Hf].
  - rewrite Ht. eauto.
  - rewrite Hf. destruct (IsScalar this); eauto.
Qed.

Lemma operator_index_built (this func : NamedFunc) :
  IsScalar this = false -> IsVector func = false ->
  exists r, operator_index this func = inr r /\ scalar_shaped r /\
    forall b w,
      GetScalar r b w
      = (let* v := GetVector this b in
         let* i := GetScalar func b in
         at_ v (to_size_t i)) w.
Proof.
  intros Ht Hf. unfold operator_index. rewrite Ht, Hf.
  eexists. split; [reflexivity|]. split; [split; reflexivity|]. reflexivity.
Qed.

Lemma Constructed_exactly_one (f : NamedFunc) : Constructed f -> exactly_one f.
Proof.
  induction 1 as [name f|name f|x|f name Hf IH|f g Hf IH|f g Hf IH
                 |o f g Hf IHf Hg IHg|f g Hf IHf Hg IHg|f g Hf IHf Hg IHg
                 |f Hf IH|f Hf IH|f Hf IH|f g r Hf IHf Hg IHg Hr].
  - reflexivity.
  - reflexivity.
  - reflexivity.
  - exact IH.
  - destruct g; [reflexivity|exact IH].
  - destruct g; [reflexivity|exact IH].
  - now apply apply_operator_exactly_one.
  - now apply logical_exactly_one.
  - now apply logical_exactly_one.
  - destruct (unary_shapes f) as [[Es Ev] _].
    unfold exactly_one in *. now rewrite Es, Ev.
  - destruct (unary_shapes f) as [_ Hu]. destruct (Hu IH) as [[Es Ev] _].
    unfold exactly_one in *. now rewrite Es, Ev.
  - destruct (unary_shapes f) as [_ Hu]. destruct (Hu IH) as [_ [Es Ev]].
    unfold exactly_one in *. now rewrite Es, Ev.
  - unfold operator_index in Hr.
    destruct (IsScalar f); [discriminate|].
    destruct (IsVector g); [discriminate|].
    injection Hr as <-. reflexivity.
Qed.

(** C4, as the code has it: every value built by the constructors from a
    callable that is not empty or from a constant, and by any operation on
    such values, holds exactly one of the scalar and vector callables;
    setting a callable that is not empty clears the other kind; setting an
    empty one changes nothing. *)
Theorem exactly_one_invariant :
  (forall f : NamedFunc, Constructed f -> exactly_one f)
  /\
  (forall (this : NamedFunc) (f : ScalarFunc),
      scalar_shaped (Function_scalar this (Some f)))
  /\
  (forall (this : NamedFunc) (f : VectorFunc),
      vector_shaped (Function_vector this (Some f)))
  /\
  (forall this : NamedFunc,
      Function_scalar this None = this /\ Function_vector this None = this).
Proof.
  split; [exact Constructed_exactly_one|].
  split; [exact Function_scalar_Some|].
  split; [exact Function_vector_Some|].
  intros this. split; reflexivity.
Qed.

(** C5: [operator[]] fails with a ShapeMismatchError when the receiver is
    scalar or the index is a vector; on a vector receiver and a scalar index
    it builds a scalar value which, on each record, evaluates the receiver,
    then the index, and returns the entry at that index if it is within the
    bounds of the vector, and throws an IndexOutOfRangeError otherwise. *)
Theorem operator_index_defined_on_vector_and_scalar (this func : NamedFunc) :
  (IsScalar this = true ->
     exists msg, operator_index this func = inl (ShapeMismatchError msg))
  /\
  (IsVector func = true ->
     exists msg, operator_index this func = inl (ShapeMismatchError msg))
  /\
  (vector_shaped this -> scalar_shaped func ->
     exists r,
       operator_index this func = inr r /\ scalar_shaped r /\
       forall b w v w1 i w2,
         returns (GetVector this b) w v w1 ->
         returns (GetScalar func b) w1 i w2 ->
         match v !! to_size_t i with
         | Some x => returns (GetScalar r b) w x w2
         | None => throws (GetScalar r b) w IndexOutOfRangeError w2
         end).
Proof.
  split; [|split].
  - intros Ht. apply operator_index_guard. now left.
  - intros Hf. apply operator_index_guard. now right.
  - intros [Hts Htv] [Hfs Hfv].
    destruct (operator_index_built this func Hts Hfv) as (r & Hr & Hshape & Heval).
    exists r. split; [exact Hr|]. split; [exact Hshape|].
    intros b w v w1 i w2 Hv Hi. unfold returns, throws in *.
    rewrite Heval. unfold bind, at_. rewrite Hv, Hi.
    now destruct (v !! to_size_t i).
Qed.

(** C6, as the code has it: building a binary operator never fails, every
    pair of shapes giving a value with exactly one callable; an index out of
    the bounds and a call of the absent callable are faults of an evaluation,
    raised for the record at hand by a value that was built without fault;
    the ShapeMismatchError is raised when [operator[]] is applied, before any
    record is seen. *)
Theorem errors_at_construction_and_at_evaluation (A B : NamedFunc) :
  (exactly_one A -> exactly_one B ->
     (forall o, exactly_one (apply_operator o A B)) /\
     exactly_one (operator_and A B) /\ exactly_one (operator_or A B))
  /\
  (vector_shaped A -> scalar_shaped B ->
     exists r,
       operator_index A B = inr r /\
       forall b w v w1 i w2,
         returns (GetVector A b) w v w1 -> returns (GetScalar B b) w1 i w2 ->
         length v <= to_size_t i ->
         throws (GetScalar r b) w IndexOutOfRangeError w2)
  /\
  (forall b w,
     (vector_shaped A -> throws (GetScalar A b) w InvalidShapeError w) /\
     (scalar_shaped A -> throws (GetVector A b) w InvalidShapeError w))
  /\
  (scalar_shaped A \/ vector_shaped B ->
     exists msg, operator_index A B = inl (ShapeMismatchError msg)).
Proof.
  split; [|split; [|split]].
  - intros HA HB. split; [|now apply logical_exactly_one].
    intros o. now apply apply_operator_exactly_one.
  - intros [Hts Htv] [Hfs Hfv].
    destruct (operator_index_built A B Hts Hfv) as (r & Hr & _ & Heval).
    exists r. split; [exact Hr|].
    intros b w v w1 i w2 Hv Hi Hle. unfold returns, throws in *.
    rewrite Heval. unfold bind, at_. rewrite Hv, Hi.
    destruct (v !! to_size_t i) eqn:E; [|reflexivity].
    apply lookup_lt_Some in E. lia.
  - intros b w. split; intros HA; shape_inv; rewrite_funcs; reflexivity.
  - intros [[Hs _]|[_ Hv]]; apply operator_index_guard; auto.
Qed.

(** ** [HavePass] on one vector and on a vector of vectors *)

Lemma HavePass_existsb (v : VectorType) : HavePass v = existsb to_bool v.
Proof.
  induction v as [|x v IH]; [reflexivity|]. simpl. now destruct (to_bool x).
Qed.

Lemma passes_at_true (ix : nat) (v : VectorType) :
  passes_at ix v = true <-> exists x, v !! ix = Some x /\ to_bool x = true.
Proof.
  unfold passes_at. destruct (v !! ix) as [x|].
  - split; [intros Hx; now exists x|]. now intros (y & [= ->] & Hy).
  - split; [discriminate|]. now intros (y & Hy & _).
Qed.

Lemma HavePass_inner_false (vv : list VectorType) ix n iv :
  HavePass_inner vv ix n iv false = inr false.
Proof. now destruct n. Qed.

Lemma HavePass_inner_true (vv : list VectorType) ix n : forall iv,
  iv + n = length vv ->
  HavePass_inner vv ix n iv true = inr (forallb (passes_at ix) (drop iv vv)).
Proof.
  induction n as [|n IH]; intros iv Hn.
  - rewrite drop_ge by lia. reflexivity.
  - destruct (lookup_lt_is_Some_2 vv iv) as [v Hv]; [lia|].
    rewrite (drop_S vv v iv Hv). cbn [HavePass_inner forallb]. rewrite Hv.
    unfold passes_at at 1.
    destruct (Nat.leb_spec (length v) ix) as [Hle|Hlt].
    + rewrite (lookup_ge_None_2 v ix Hle). apply HavePass_inner_false.
    + destruct (lookup_lt_is_Some_2 v ix Hlt) as [x Hx]. rewrite Hx.
      destruct (to_bool x); cbn [negb andb].
      * apply IH. lia.
      * apply HavePass_inner_false.
Qed.

Lemma HavePass_outer_scan (vv : list VectorType) n : forall ix,
  HavePass_outer vv n ix
  = inr (existsb (fun j => forallb (passes_at j) vv) (seq ix n)).
Proof.
  induction n as [|n IH]; intros ix; [reflexivity|].
  cbn [HavePass_outer seq existsb].
  rewrite (HavePass_inner_true vv ix (length vv) 0) by lia. rewrite drop_0.
  destruct (forallb (passes_at ix) vv); [reflexivity|]. apply IH.
Qed.

(** C7: [HavePass] on a vector of vectors returns, without fault, whether
    the list is not empty and some index lies within every vector and has a
    truthy entry in every vector; on the empty list it returns false. *)
Theorem HavePass_vv_common_index (vv : list VectorType) :
  HavePass_vv [] = inr false /\
  exists r,
    HavePass_vv vv = inr r /\
    (r = true <->
     vv <> [] /\
     exists ix, Forall (fun v => exists x, v !! ix = Some x /\ to_bool x = true) vv).
Proof.
  split; [reflexivity|].
  destruct vv as [|v0 vv'].
  - exists false. split; [reflexivity|]. split; [discriminate|]. now intros [[] _].
  - unfold HavePass_vv. cbn [length Nat.eqb lookup list_lookup].
    rewrite HavePass_outer_scan. eexists. split; [reflexivity|].
    rewrite existsb_exists. split.
    + intros (ix & _ & Hall). split; [discriminate|]. exists ix.
      apply List.Forall_forall. intros v Hv. apply passes_at_true.
      rewrite forallb_forall in Hall. now apply Hall.
    + intros (_ & ix & Hall). exists ix.
      rewrite List.Forall_forall in Hall. split.
      * apply in_seq. destruct (Hall v0 (or_introl eq_refl)) as (x & Hx & _).
        apply lookup_lt_Some in Hx. lia.
      * apply forallb_forall. intros v Hv. apply passes_at_true. now apply Hall.
Qed.

(** ** Unary operators *)

Lemma ReplaceAll_space_app (s t : string) :
  ReplaceAll_space (s +:+ t) = ReplaceAll_space s +:+ ReplaceAll_space t.
Proof.
  induction s as [|c s IH]; [reflexivity|]. simpl.
  destruct (Ascii.eqb c " "); simpl; now rewrite IH.
Qed.

Lemma append_assoc (s t u : string) : (s +:+ t) +:+ u = s +:+ (t +:+ u).
Proof.
  induction s as [|c s IH]; [reflexivity|].
  change (String c ((s +:+ t) +:+ u) = String c (s +:+ (t +:+ u))).
  now rewrite IH.
Qed.

Lemma Function_scalar_name (f : NamedFunc) g : name_ (Function_scalar f g) = name_ f.
Proof. now destruct g. Qed.

Lemma Function_vector_name (f : NamedFunc) g : name_ (Function_vector f g) = name_ f.
Proof. now destruct g. Qed.

(** C8: unary minus and logical not keep the shape of their operand: on a
    scalar value the scalar callable of the result returns [op] of what the
    operand returns; on a vector value the vector callable applies [op] to
    each entry, in order; a callable absent from the operand is absent from
    the result.  Unary plus keeps both callables as they are, so that every
    evaluation is the operand's, and renames the value to [+(...)]. *)
Theorem unary_operators_keep_shape (f : NamedFunc) (b : Baby) (w : World) :
  (scalar_shaped f ->
     (scalar_shaped (operator_unary_minus f) /\ scalar_shaped (operator_not f)) /\
     forall x w1,
       returns (GetScalar f b) w x w1 ->
       returns (GetScalar (operator_unary_minus f) b) w (negate x) w1 /\
       returns (GetScalar (operator_not f) b) w (of_bool (negb (to_bool x))) w1)
  /\
  (vector_shaped f ->
     (vector_shaped (operator_unary_minus f) /\ vector_shaped (operator_not f)) /\
     forall v w1,
       returns (GetVector f b) w v w1 ->
       returns (GetVector (operator_unary_minus f) b) w (map negate v) w1 /\
       returns (GetVector (operator_not f) b) w
         (map (fun x => of_bool (negb (to_bool x))) v) w1)
  /\
  (IsScalar f = false ->
     IsScalar (operator_unary_minus f) = false /\
     IsScalar (operator_not f) = false /\
     IsScalar (operator_unary_plus f) = false)
  /\
  (IsVector f = false ->
     IsVector (operator_unary_minus f) = false /\
     IsVector (operator_not f) = false /\
     IsVector (operator_unary_plus f) = false)
  /\
  (GetScalar (operator_unary_plus f) b w = GetScalar f b w /\
   GetVector (operator_unary_plus f) b w = GetVector f b w /\
   IsScalar (operator_unary_plus f) = IsScalar f /\
   IsVector (operator_unary_plus f) = IsVector f /\
   Name (operator_unary_plus f) = "+(" +:+ ReplaceAll_space (Name f) +:+ ")").
Proof.
  destruct f as [n [s|] [v|]];
    unfold scalar_shaped, vector_shaped, returns; cbn;
    (split; [|split; [|split; [|split]]]);
    try (intros [? ?]; discriminate); try discriminate;
    try (intros _; repeat split; reflexivity).
  all: try (repeat split; try reflexivity;
            rewrite ReplaceAll_space_app; cbn;
            now rewrite ReplaceAll_space_app).
  - intros _. split; [repeat split|].
    intros x w1 Hx. unfold bind, logical_not. now rewrite Hx.
  - intros _. split; [repeat split|].
    intros x w1 Hx. unfold bind. now rewrite Hx.
Qed.

(** ** Names *)

Lemma compound_assign_name sym op (A B : NamedFunc) :
  Name (compound_assign sym op A B)
  = "(" +:+ Name A +:+ ")" +:+ sym +:+ "(" +:+ Name B +:+ ")".
Proof. reflexivity. Qed.

Lemma through_setters_name sym apply (A B : NamedFunc) :
  Name (through_setters sym apply A B)
  = ReplaceAll_space ("(" +:+ Name A +:+ ")" +:+ sym +:+ "(" +:+ Name B +:+ ")").
Proof.
  unfold through_setters, Name.
  now rewrite Function_vector_name, Function_scalar_name.
Qed.

Lemma clean_binary_name (sym a c : string) :
  clean sym -> clean a -> clean c ->
  clean ("(" +:+ a +:+ ")" +:+ sym +:+ "(" +:+ c +:+ ")").
Proof.
  unfold clean. intros Hs Ha Hc.
  rewrite !ReplaceAll_space_app, Hs, Ha, Hc. reflexivity.
Qed.

Lemma symbol_clean (o : BinaryOperator) : clean (symbol o).
Proof. now destruct o. Qed.

Lemma apply_operator_name (o : BinaryOperator) (A B : NamedFunc) :
  clean (Name A) -> clean (Name B) ->
  Name (apply_operator o A B)
  = "(" +:+ Name A +:+ ")" +:+ symbol o +:+ "(" +:+ Name B +:+ ")".
Proof.
  intros HA HB.
  pose proof (clean_binary_name (symbol o) _ _ (symbol_clean o) HA HB) as Hc.
  destruct o; first [apply compound_assign_name
                    | cbn [apply_operator];
                      unfold operator_eq, operator_ne, operator_gt, operator_lt,
                             operator_ge, operator_le;
                      rewrite through_setters_name; exact Hc].
Qed.

Lemma ReplaceAll_space_idem (s : string) : clean (ReplaceAll_space s).
Proof.
  unfold clean. induction s as [|c s IH]; [reflexivity|]. simpl.
  destruct (Ascii.eqb c " ") eqn:Hc; [exact IH|]. simpl. now rewrite Hc, IH.
Qed.

(** Every name the class sets is without spaces, provided the printing of a
    constant is: the hypothesis of C9 on the operands is an invariant. *)
Lemma Constructed_clean_name (f : NamedFunc) :
  (forall x : ScalarType, clean (ToString x)) ->
  Constructed f -> clean (Name f).
Proof.
  intros Hprint.
  induction 1 as [name f|name f|x|f name Hf IH|f g Hf IH|f g Hf IH
                 |o f g Hf IHf Hg IHg|f g Hf IHf Hg IHg|f g Hf IHf Hg IHg
                 |f Hf IH|f Hf IH|f Hf IH|f g r Hf IHf Hg IHg Hr].
  - apply ReplaceAll_space_idem.
  - apply ReplaceAll_space_idem.
  - apply Hprint.
  - apply ReplaceAll_space_idem.
  - unfold Name. now rewrite Function_scalar_name.
  - unfold Name. now rewrite Function_vector_name.
  - rewrite apply_operator_name by assumption.
    apply clean_binary_name; auto using symbol_clean.
  - unfold operator_and. rewrite through_setters_name. apply ReplaceAll_space_idem.
  - unfold operator_or. rewrite through_setters_name. apply ReplaceAll_space_idem.
  - apply ReplaceAll_space_idem.
  - unfold operator_unary_minus, Name.
    rewrite Function_vector_name, Function_scalar_name. apply ReplaceAll_space_idem.
  - unfold operator_not, Name.
    rewrite Function_vector_name, Function_scalar_name. apply ReplaceAll_space_idem.
  - unfold operator_index in Hr.
    destruct (IsScalar f); [discriminate|].
    destruct (IsVector g); [discriminate|].
    injection Hr as <-. apply ReplaceAll_space_idem.
Qed.

Lemma operator_unary_minus_name (f : NamedFunc) :
  Name (operator_unary_minus f) = "-(" +:+ ReplaceAll_space (Name f) +:+ ")".
Proof.
  unfold operator_unary_minus, Name.
  rewrite Function_vector_name, Function_scalar_name. cbn [Name_set CleanName name_].
  now rewrite !ReplaceAll_space_app.
Qed.

(** C9: the name of the result of a binary operator is
    ["(" + A.name + ")" + symbol + "(" + B.name + ")"] with all spaces
    stripped.  The comparisons and the logical operators strip the spaces
    themselves, whatever the operands; the arithmetic operators concatenate
    the names as they are, which is the same on every value the class
    builds, the names of those holding no space (the printing of a
    constant holding none).  So the sum of two values is named
    ["(" + x + ")+(" + y + ")"] after their names [x] and [y], literally, the
    sum of leaves constructed on two strings is named after the strings
    without their spaces, and negating a value twice wraps its name as
    ["-(-(" + name + "))"]. *)
Theorem binary_operator_names (A B : NamedFunc) :
  (forall o,
      match o with
      | OpPlus | OpMinus | OpMul | OpDiv | OpMod =>
          Name (apply_operator o A B)
          = "(" +:+ Name A +:+ ")" +:+ symbol o +:+ "(" +:+ Name B +:+ ")"
      | _ =>
          Name (apply_operator o A B)
          = ReplaceAll_space
              ("(" +:+ Name A +:+ ")" +:+ symbol o +:+ "(" +:+ Name B +:+ ")")
      end)
  /\
  Name (operator_and A B)
  = ReplaceAll_space ("(" +:+ Name A +:+ ")" +:+ "&&" +:+ "(" +:+ Name B +:+ ")")
  /\
  Name (operator_or A B)
  = ReplaceAll_space ("(" +:+ Name A +:+ ")" +:+ "||" +:+ "(" +:+ Name B +:+ ")")
  /\
  ((forall x : ScalarType, clean (ToString x)) ->
   Constructed A -> Constructed B ->
   (forall o,
       Name (apply_operator o A B)
       = ReplaceAll_space
           ("(" +:+ Name A +:+ ")" +:+ symbol o +:+ "(" +:+ Name B +:+ ")") /\
       Name (apply_operator o A B)
       = "(" +:+ Name A +:+ ")" +:+ symbol o +:+ "(" +:+ Name B +:+ ")") /\
   Name (operator_and A B)
   = "(" +:+ Name A +:+ ")" +:+ "&&" +:+ "(" +:+ Name B +:+ ")" /\
   Name (operator_or A B)
   = "(" +:+ Name A +:+ ")" +:+ "||" +:+ "(" +:+ Name B +:+ ")")
  /\
  Name (operator_plus A B) = "(" +:+ Name A +:+ ")+(" +:+ Name B +:+ ")"
  /\
  (forall (x y : string) (f g : option ScalarFunc),
      Name (operator_plus (NamedFunc_scalar x f) (NamedFunc_scalar y g))
      = ReplaceAll_space ("(" +:+ x +:+ ")+(" +:+ y +:+ ")"))
  /\
  Name (operator_unary_minus (operator_unary_minus A))
  = "-(-(" +:+ ReplaceAll_space (Name A) +:+ "))"
  /\
  (forall (x : string) (f : option ScalarFunc),
      Name (operator_unary_minus (operator_unary_minus (NamedFunc_scalar x f)))
      = ReplaceAll_space ("-(-(" +:+ x +:+ "))")).
Proof.
  assert (Hneg : forall f : NamedFunc,
             Name (operator_unary_minus (operator_unary_minus f))
             = "-(-(" +:+ ReplaceAll_space (Name f) +:+ "))").
  { intros f. rewrite !operator_unary_minus_name, !ReplaceAll_space_app.
    rewrite (ReplaceAll_space_idem (Name f)).
    rewrite !append_assoc. reflexivity. }
  split; [|split; [|split; [|split; [|split; [|split; [|split]]]]]].
  - intros o. destruct o; first [apply compound_assign_name
                                | apply through_setters_name].
  - apply through_setters_name.
  - apply through_setters_name.
  - intros Hprint CA CB.
    pose proof (Constructed_clean_name A Hprint CA) as HA.
    pose proof (Constructed_clean_name B Hprint CB) as HB.
    split; [|split].
    + intros o. rewrite (apply_operator_name o A B HA HB).
      split; [|reflexivity]. symmetry.
      apply clean_binary_name; auto using symbol_clean.
    + unfold operator_and. rewrite through_setters_name.
      now apply clean_binary_name.
    + unfold operator_or. rewrite through_setters_name.
      now apply clean_binary_name.
  - reflexivity.
  - intros x y f g. rewrite !ReplaceAll_space_app. reflexivity.
  - apply Hneg.
  - intros x f. rewrite Hneg, !ReplaceAll_space_app.
    change (Name (NamedFunc_scalar x f)) with (ReplaceAll_space x).
    now rewrite (ReplaceAll_space_idem x).
Qed.

(** ** Operators and compound assignments *)

Lemma same_value_refl (x : NamedFunc) : same_value x x.
Proof. repeat split. Qed.

(** C10: each of [f + g], [f - g], [f * g], [f / g] and [f % g] is the value
    left in a copy of [f] by the compound assignment of that operator with
    argument [g]: same name, same callables present, same evaluations. *)
Theorem operator_agrees_with_compound_assignment (f g : NamedFunc) :
  same_value (operator_plus f g) (operator_plus_eq f g) /\
  same_value (operator_minus f g) (operator_minus_eq f g) /\
  same_value (operator_mul f g) (operator_mul_eq f g) /\
  same_value (operator_div f g) (operator_div_eq f g) /\
  same_value (operator_mod f g) (operator_mod_eq f g).
Proof.
  unfold operator_plus, operator_minus, operator_mul, operator_div, operator_mod.
  repeat split.
Qed.

(** * Further properties of the operator algebra *)

(** ** Logical operators on two scalars and on two vectors *)

(** X1: on two scalars [A && B] and [A || B] are scalars, and the built-in
    operator short-circuits: where [A] is falsy, [A && B] is [false] and
    [B]'s callable has not run; where [A] is truthy, [A || B] is [true] and
    [B]'s callable has not run; otherwise [B] runs once and the result is
    its truth value, as 0 or 1. *)
Theorem logical_scalar_scalar_short_circuits
    (A B : NamedFunc) (b : Baby) (w : World) :
  scalar_shaped A -> scalar_shaped B ->
  (scalar_shaped (operator_and A B) /\ scalar_shaped (operator_or A B))
  /\
  (forall x w1,
      returns (GetScalar A b) w x w1 ->
      (to_bool x = false ->
         returns (GetScalar (operator_and A B) b) w (of_bool false) w1)
      /\
      (to_bool x = true ->
         returns (GetScalar (operator_or A B) b) w (of_bool true) w1)
      /\
      (forall y w2,
         returns (GetScalar B b) w1 y w2 ->
         (to_bool x = true ->
            returns (GetScalar (operator_and A B) b) w (of_bool (to_bool y)) w2)
         /\
         (to_bool x = false ->
            returns (GetScalar (operator_or A B) b) w (of_bool (to_bool y)) w2))).
Proof.
  intros SA SB.
  destruct A as [nA [sA|] [vA|]]; destruct SA as [HsA HvA]; try discriminate.
  destruct B as [nB [sB|] [vB|]]; destruct SB as [HsB HvB]; try discriminate.
  split; [repeat split|].
  intros x w1 Hx. unfold returns in *. cbn in *. unfold bind. rewrite Hx.
  split; [|split].
  - now intros ->.
  - now intros ->.
  - intros y w2 Hy. split; intros ->; now rewrite Hy.
Qed.

Lemma ApplyOp_logical_and_vector_vector (vfa vfb : VectorFunc) :
  ApplyOp_logical_and None (Some vfa) None (Some vfb)
  = ApplyOp None (Some vfa) None (Some vfb)
      (fun x y => of_bool (to_bool x && to_bool y)).
Proof. reflexivity. Qed.

Lemma ApplyOp_logical_or_vector_vector (vfa vfb : VectorFunc) :
  ApplyOp_logical_or None (Some vfa) None (Some vfb)
  = ApplyOp None (Some vfa) None (Some vfb)
      (fun x y => of_bool (to_bool x || to_bool y)).
Proof. reflexivity. Qed.

(** What [A && B] and [A || B] compute on two vectors. *)
Lemma logical_vector_vector_eval (A B : NamedFunc) (b : Baby) (w : World) :
  vector_shaped A -> vector_shaped B ->
  (vector_shaped (operator_and A B) /\ vector_shaped (operator_or A B)) /\
  GetVector (operator_and A B) b w
  = (let* va := GetVector A b in
     let* vb := GetVector B b in
     ret (zip_with (fun x y => of_bool (to_bool x && to_bool y)) va vb)) w /\
  GetVector (operator_or A B) b w
  = (let* va := GetVector A b in
     let* vb := GetVector B b in
     ret (zip_with (fun x y => of_bool (to_bool x || to_bool y)) va vb)) w.
Proof.
  intros SA SB.
  destruct A as [nA [sA|] [vA|]]; destruct SA as [HsA HvA]; try discriminate.
  destruct B as [nB [sB|] [vB|]]; destruct SB as [HsB HvB]; try discriminate.
  unfold operator_and, operator_or, through_setters, vector_shaped,
         IsScalar, IsVector, GetVector.
  cbn [Name_set CleanName ScalarFunction VectorFunction scalar_func_ vector_func_].
  rewrite ApplyOp_logical_and_vector_vector, ApplyOp_logical_or_vector_vector.
  destruct (ApplyOp_vector_vector
              (fun x y => of_bool (to_bool x && to_bool y)) vA vB)
    as (ga & -> & Hga).
  destruct (ApplyOp_vector_vector
              (fun x y => of_bool (to_bool x || to_bool y)) vA vB)
    as (go & -> & Hgo).
  cbn. split; [repeat split|]. split; [apply Hga|apply Hgo].
Qed.

(** X2: on two vectors both callables run, [A]'s first, and [A && B] and
    [A || B] pair the entries up to the shorter of the two results: entry
    [i] is the truth value of [A[i] && B[i]], of [A[i] || B[i]], as 0 or 1. *)
Theorem logical_vector_vector_pairs_entries
    (A B : NamedFunc) (b : Baby) (w : World) :
  vector_shaped A -> vector_shaped B ->
  (vector_shaped (operator_and A B) /\ vector_shaped (operator_or A B))
  /\
  (forall va w1 vb w2,
      returns (GetVector A b) w va w1 -> returns (GetVector B b) w1 vb w2 ->
      exists vand vor,
        returns (GetVector (operator_and A B) b) w vand w2 /\
        returns (GetVector (operator_or A B) b) w vor w2 /\
        length vand = Nat.min (length va) (length vb) /\
        length vor = Nat.min (length va) (length vb) /\
        forall i x y,
          va !! i = Some x -> vb !! i = Some y ->
          vand !! i = Some (of_bool (to_bool x && to_bool y)) /\
          vor !! i = Some (of_bool (to_bool x || to_bool y))).
Proof.
  intros SA SB.
  destruct (logical_vector_vector_eval A B b w SA SB) as (Hshape & Hand & Hor).
  split; [exact Hshape|].
  intros va w1 vb w2 Ha Hb. unfold returns in *.
  rewrite Hand, Hor. unfold bind. rewrite Ha, Hb.
  eexists. eexists. split; [reflexivity|]. split; [reflexivity|].
  rewrite !length_zip_with. split; [reflexivity|]. split; [reflexivity|].
  intros i x y Hx Hy. split; apply lookup_zip_with_Some; eauto.
Qed.

(** X3: on a scalar [A] and a vector [B] the entries of [A && B] and of
    [A || B] have the truth values of [A && B[i]] and of [A || B[i]], and
    there are as many as in [B]'s result. *)
Theorem logical_scalar_vector_truth_values
    (A B : NamedFunc) (b : Baby) (w : World) :
  scalar_shaped A -> vector_shaped B ->
  forall sa w1 vb w2,
    returns (GetScalar A b) w sa w1 -> returns (GetVector B b) w1 vb w2 ->
    exists vand vor,
      returns (GetVector (operator_and A B) b) w vand w2 /\
      returns (GetVector (operator_or A B) b) w vor w2 /\
      length vand = length vb /\ length vor = length vb /\
      forall i y,
        vb !! i = Some y ->
        (exists z, vand !! i = Some z /\ to_bool z = to_bool sa && to_bool y) /\
        (exists z, vor !! i = Some z /\ to_bool z = to_bool sa || to_bool y).
Proof.
  intros SA SB sa w1 vb w2 Ha Hb.
  destruct A as [nA [sA|] [vA|]]; destruct SA as [HsA HvA]; try discriminate.
  destruct B as [nB [sB|] [vB|]]; destruct SB as [HsB HvB]; try discriminate.
  unfold returns in *. cbn in *. unfold bind. rewrite Ha.
  destruct (to_bool sa) eqn:Hsa; cbn; rewrite Hb.
  - eexists. eexists. split; [reflexivity|]. split; [reflexivity|].
    rewrite length_replicate. split; [reflexivity|]. split; [reflexivity|].
    intros i y Hy. split.
    + exists y. now split.
    + exists (of_bool true). split; [|apply to_bool_of_bool].
      apply lookup_replicate_2. now apply lookup_lt_Some in Hy.
  - eexists. eexists. split; [reflexivity|]. split; [reflexivity|].
    rewrite length_replicate. split; [reflexivity|]. split; [reflexivity|].
    intros i y Hy. split.
    + exists (of_bool false). split; [|apply to_bool_of_bool].
      apply lookup_replicate_2. now apply lookup_lt_Some in Hy.
    + exists y. now split.
Qed.

(** X13: on a vector [A] and a scalar [B] a fault of [B]'s callable is a
    fault of [A && B] exactly on the records where some entry of [A] is
    truthy, and of [A || B] where some entry is falsy; elsewhere [B] does
    not run and the result is returned. *)
Theorem logical_vector_scalar_fault_needs_trigger
    (A B : NamedFunc) (b : Baby) (w : World) :
  vector_shaped A -> scalar_shaped B ->
  forall va w1 e w2,
    returns (GetVector A b) w va w1 -> throws (GetScalar B b) w1 e w2 ->
    (if existsb to_bool va
     then throws (GetVector (operator_and A B) b) w e w2
     else returns (GetVector (operator_and A B) b) w
            (map (fun _ => of_bool false) va) w1)
    /\
    (if existsb (fun x => negb (to_bool x)) va
     then throws (GetVector (operator_or A B) b) w e w2
     else returns (GetVector (operator_or A B) b) w
            (map (fun _ => of_bool true) va) w1).
Proof.
  intros SA SB va w1 e w2 Ha Hb.
  destruct (logical_funcs A B (vector_shaped_exactly_one A SA)
                              (scalar_shaped_exactly_one B SB))
    as [[_ Eav] [_ Eov]].
  unfold GetScalar, GetVector, returns, throws in *.
  rewrite Eav, Eov. clear Eav Eov.
  destruct A as [nA [sA|] [vA|]]; destruct SA as [HsA HvA]; try discriminate.
  destruct B as [nB [sB|] [vB|]]; destruct SB as [HsB HvB]; try discriminate.
  cbn [scalar_func_ vector_func_ call] in *.
  destruct (ApplyOp_logical_and_vector_scalar vA sB None) as (ga & -> & Hga).
  destruct (ApplyOp_logical_or_vector_scalar vA sB None) as (go & -> & Hgo).
  cbn [snd call]. rewrite Hga, Hgo. unfold bind. rewrite Ha.
  split.
  - destruct (existsb to_bool va); [now rewrite Hb|reflexivity].
  - destruct (existsb (fun x => negb (to_bool x)) va);
      [now rewrite Hb|reflexivity].
Qed.

(** ** Faults of the operands of the generic operators *)

(** X4: where one operand of a generic binary operator is a vector, a fault
    of the left operand is the fault of the result and the right operand
    does not run; a fault of the right operand, run after the left one
    returned, is the fault of the result. *)
Theorem generic_operator_passes_faults_on
    (o : BinaryOperator) (A B : NamedFunc) (b : Baby) (w : World) (e : Error) :
  (scalar_shaped A -> vector_shaped B ->
     (forall w1,
         throws (GetScalar A b) w e w1 ->
         throws (GetVector (apply_operator o A B) b) w e w1) /\
     (forall sa w1 w2,
         returns (GetScalar A b) w sa w1 -> throws (GetVector B b) w1 e w2 ->
         throws (GetVector (apply_operator o A B) b) w e w2))
  /\
  (vector_shaped A -> scalar_shaped B ->
     (forall w1,
         throws (GetVector A b) w e w1 ->
         throws (GetVector (apply_operator o A B) b) w e w1) /\
     (forall va w1 w2,
         returns (GetVector A b) w va w1 -> throws (GetScalar B b) w1 e w2 ->
         throws (GetVector (apply_operator o A B) b) w e w2))
  /\
  (vector_shaped A -> vector_shaped B ->
     (forall w1,
         throws (GetVector A b) w e w1 ->
         throws (GetVector (apply_operator o A B) b) w e w1) /\
     (forall va w1 w2,
         returns (GetVector A b) w va w1 -> throws (GetVector B b) w1 e w2 ->
         throws (GetVector (apply_operator o A B) b) w e w2)).
Proof.
  split; [|split]; intros SA SB.
  - destruct (apply_operator_funcs o A B (scalar_shaped_exactly_one A SA)
                (vector_shaped_exactly_one B SB)) as [_ Ev].
    unfold GetScalar, GetVector, returns, throws. rewrite Ev. clear Ev.
    shape_inv. rewrite_funcs.
    match goal with |- context [ApplyOp (Some ?a) None None (Some ?c) _] =>
      destruct (ApplyOp_scalar_vector (op_c o) a None c) as (g & -> & Hg) end.
    cbn [snd call]. split.
    + intros w1 Ha. rewrite Hg. unfold bind. now rewrite Ha.
    + intros sa w1 w2 Ha Hb. rewrite Hg. unfold bind. now rewrite Ha, Hb.
  - destruct (apply_operator_funcs o A B (vector_shaped_exactly_one A SA)
                (scalar_shaped_exactly_one B SB)) as [_ Ev].
    unfold GetScalar, GetVector, returns, throws. rewrite Ev. clear Ev.
    shape_inv. rewrite_funcs.
    match goal with |- context [ApplyOp None (Some ?a) (Some ?c) None _] =>
      destruct (ApplyOp_vector_scalar (op_c o) a c None) as (g & -> & Hg) end.
    cbn [snd call]. split.
    + intros w1 Ha. rewrite Hg. unfold bind. now rewrite Ha.
    + intros va w1 w2 Ha Hb. rewrite Hg. unfold bind. now rewrite Ha, Hb.
  - destruct (apply_operator_funcs o A B (vector_shaped_exactly_one A SA)
                (vector_shaped_exactly_one B SB)) as [_ Ev].
    unfold GetScalar, GetVector, returns, throws. rewrite Ev. clear Ev.
    shape_inv. rewrite_funcs.
    match goal with |- context [ApplyOp None (Some ?a) None (Some ?c) _] =>
      destruct (ApplyOp_vector_vector (op_c o) a c) as (g & -> & Hg) end.
    cbn [snd call]. split.
    + intros w1 Ha. rewrite Hg. unfold bind. now rewrite Ha.
    + intros va w1 w2 Ha Hb. rewrite Hg. unfold bind. now rewrite Ha, Hb.
Qed.

(** ** Operands that hold no callable *)

(** X5: when the right operand holds no callable (a value built from an
    empty [std::function]), the compound assignments and the arithmetic
    operators overwrite both callables with empty ones, so that the result
    holds none and every evaluation of it faults; the comparisons and the
    logical operators, which go through [Function], leave the callables of
    the left operand in place under the new name, so that the result
    evaluates as the left operand does. *)
Theorem operand_without_callable (o : BinaryOperator) (A B : NamedFunc) :
  IsScalar B = false -> IsVector B = false ->
  match o with
  | OpPlus | OpMinus | OpMul | OpDiv | OpMod =>
      IsScalar (apply_operator o A B) = false /\
      IsVector (apply_operator o A B) = false /\
      forall b w,
        throws (GetScalar (apply_operator o A B) b) w InvalidShapeError w /\
        throws (GetVector (apply_operator o A B) b) w InvalidShapeError w
  | _ =>
      IsScalar (apply_operator o A B) = IsScalar A /\
      IsVector (apply_operator o A B) = IsVector A /\
      forall b w,
        GetScalar (apply_operator o A B) b w = GetScalar A b w /\
        GetVector (apply_operator o A B) b w = GetVector A b w
  end
  /\
  (IsScalar (operator_and A B) = IsScalar A /\
   IsVector (operator_and A B) = IsVector A /\
   forall b w,
     GetScalar (operator_and A B) b w = GetScalar A b w /\
     GetVector (operator_and A B) b w = GetVector A b w)
  /\
  (IsScalar (operator_or A B) = IsScalar A /\
   IsVector (operator_or A B) = IsVector A /\
   forall b w,
     GetScalar (operator_or A B) b w = GetScalar A b w /\
     GetVector (operator_or A B) b w = GetVector A b w).
Proof.
  destruct B as [nB [sB|] [vB|]]; intros HsB HvB; try discriminate.
  destruct A as [nA [sA|] [vA|]]; (split; [destruct o|]); repeat split.
Qed.

(** X6: [operator[]] tests the shapes that are present, not the ones that
    are missing: a receiver or an index that holds no callable passes both
    guards, and the fault comes with the evaluation, as an
    InvalidShapeError, for an index without callable after the receiver has
    been evaluated. *)
Theorem operator_index_without_callable (this func : NamedFunc) :
  (IsScalar this = false -> IsVector this = false -> IsVector func = false ->
     exists r,
       operator_index this func = inr r /\ scalar_shaped r /\
       forall b w, throws (GetScalar r b) w InvalidShapeError w)
  /\
  (vector_shaped this -> IsScalar func = false -> IsVector func = false ->
     exists r,
       operator_index this func = inr r /\ scalar_shaped r /\
       forall b w v w1,
         returns (GetVector this b) w v w1 ->
         throws (GetScalar r b) w InvalidShapeError w1).
Proof.
  split.
  - intros Hs Hv Hf.
    destruct (operator_index_built this func Hs Hf) as (r & Hr & Hshape & Heval).
    exists r. split; [exact Hr|]. split; [exact Hshape|].
    intros b w. unfold throws. rewrite Heval.
    destruct this as [n [s|] [v|]]; try discriminate. reflexivity.
  - intros [Hs Hv] Hfs Hfv.
    destruct (operator_index_built this func Hs Hfv) as (r & Hr & Hshape & Heval).
    exists r. split; [exact Hr|]. split; [exact Hshape|].
    intros b w v w1 Hret. unfold throws, returns in *. rewrite Heval.
    unfold bind. rewrite Hret.
    destruct func as [n [s|] [vf|]]; try discriminate. reflexivity.
Qed.

(** ** More on [HavePass] *)

Lemma HavePass_true_iff (v : VectorType) :
  HavePass v = true <-> exists i x, v !! i = Some x /\ to_bool x = true.
Proof.
  rewrite HavePass_existsb, existsb_exists. split.
  - intros (x & Hin & Hx). apply list_elem_of_In, list_elem_of_lookup in Hin.
    destruct Hin as [i Hi]. eauto.
  - intros (i & x & Hi & Hx). exists x. split; [|exact Hx].
    apply list_elem_of_In, list_elem_of_lookup. eauto.
Qed.

(** X7: [HavePass] on one vector is true exactly when some entry is
    truthy, false on the empty vector, and on a concatenation it is the
    disjunction of the answers on the two parts. *)
Theorem HavePass_some_truthy_entry (v v' : VectorType) :
  (HavePass v = true <-> exists i x, v !! i = Some x /\ to_bool x = true) /\
  (HavePass v = false <-> Forall (fun x => to_bool x = false) v) /\
  HavePass [] = false /\
  HavePass (v ++ v') = HavePass v || HavePass v'.
Proof.
  split; [apply HavePass_true_iff|]. split; [|split; [reflexivity|]].
  - rewrite HavePass_existsb. induction v as [|x v IH]; simpl.
    + split; [constructor|reflexivity].
    + destruct (to_bool x) eqn:Hx; simpl.
      * split; [discriminate|]. intros Hall.
        apply Forall_cons_1 in Hall as [Hx' _]. congruence.
      * rewrite IH. split; [now constructor|]. intros Hall.
        now apply Forall_cons_1 in Hall as [_ Hall].
  - rewrite !HavePass_existsb. apply existsb_app.
Qed.

Lemma HavePass_vv_scan (vv : list VectorType) :
  HavePass_vv vv
  = inr match vv with
        | [] => false
        | v0 :: _ => existsb (fun j => forallb (passes_at j) vv) (seq 0 (length v0))
        end.
Proof.
  destruct vv as [|v0 vv']; [reflexivity|].
  unfold HavePass_vv. cbn [length Nat.eqb lookup list_lookup].
  apply HavePass_outer_scan.
Qed.

Lemma HavePass_vv_true_iff (vv : list VectorType) :
  HavePass_vv vv = inr true <->
  vv <> [] /\ exists ix, Forall (fun v => passes_at ix v = true) vv.
Proof.
  rewrite HavePass_vv_scan. destruct vv as [|v0 vv'].
  - split; [discriminate|]. now intros [[] _].
  - split.
    + intros [= Hex]. apply existsb_exists in Hex as (ix & _ & Hall).
      split; [discriminate|]. exists ix.
      apply List.Forall_forall. now apply forallb_forall.
    + intros (_ & ix & Hall). f_equal. apply existsb_exists. exists ix.
      rewrite List.Forall_forall in Hall. split.
      * apply in_seq.
        destruct (proj1 (passes_at_true ix v0) (Hall v0 (or_introl eq_refl)))
          as (x & Hx & _).
        apply lookup_lt_Some in Hx. lia.
      * apply forallb_forall. exact Hall.
Qed.

Lemma HavePass_vv_returns (vv : list VectorType) : exists r, HavePass_vv vv = inr r.
Proof. rewrite HavePass_vv_scan. eauto. Qed.

(** X8: the answer of [HavePass] on a vector of vectors does not depend on
    the order of the vectors, although the loop runs over the indices of
    the first one. *)
Theorem HavePass_vv_any_order (vv vv' : list VectorType) :
  Permutation vv vv' -> HavePass_vv vv = HavePass_vv vv'.
Proof.
  intros Hp.
  assert (Hiff : HavePass_vv vv = inr true <-> HavePass_vv vv' = inr true).
  { rewrite !HavePass_vv_true_iff. split.
    - intros (Hne & ix & Hall). split.
      + intros ->. apply Hne. now apply Permutation_nil_r.
      + exists ix. now rewrite <- Hp.
    - intros (Hne & ix & Hall). split.
      + intros ->. apply Hne. symmetry in Hp. now apply Permutation_nil_r.
      + exists ix. now rewrite Hp. }
  destruct (HavePass_vv_returns vv) as [r Hr].
  destruct (HavePass_vv_returns vv') as [r' Hr'].
  rewrite Hr, Hr' in *. f_equal.
  destruct r, r'; try reflexivity.
  - now destruct Hiff as [Hi _]; specialize (Hi eq_refl).
  - now destruct Hiff as [_ Hi]; specialize (Hi eq_refl).
Qed.

Lemma HavePass_vv_single (va : VectorType) : HavePass_vv [va] = inr (HavePass va).
Proof.
  rewrite HavePass_vv_scan. f_equal. apply Bool.eq_iff_eq_true.
  rewrite existsb_exists, HavePass_true_iff. split.
  - intros (ix & _ & Hall). cbn [forallb] in Hall.
    apply andb_true_iff in Hall as [Hva _].
    apply passes_at_true in Hva as (x & Hx & Hxt). eauto.
  - intros (i & x & Hx & Hxt). exists i. split.
    + apply in_seq. apply lookup_lt_Some in Hx. lia.
    + cbn [forallb]. apply andb_true_iff. split; [|reflexivity].
      apply passes_at_true. eauto.
Qed.

Lemma HavePass_vv_pair (va vb : VectorType) :
  HavePass_vv [va; vb]
  = inr (HavePass (zip_with (fun x y => of_bool (to_bool x && to_bool y)) va vb)).
Proof.
  rewrite HavePass_vv_scan. f_equal. apply Bool.eq_iff_eq_true.
  rewrite existsb_exists, HavePass_true_iff. split.
  - intros (ix & _ & Hall). cbn [forallb] in Hall.
    apply andb_true_iff in Hall as [Hva Hall].
    apply andb_true_iff in Hall as [Hvb _].
    apply passes_at_true in Hva as (x & Hx & Hxt).
    apply passes_at_true in Hvb as (y & Hy & Hyt).
    exists ix, (of_bool (to_bool x && to_bool y)). split.
    + apply lookup_zip_with_Some. eauto.
    + now rewrite to_bool_of_bool, Hxt, Hyt.
  - intros (i & z & Hz & Hzt).
    apply lookup_zip_with_Some in Hz as (x & y & -> & Hx & Hy).
    rewrite to_bool_of_bool in Hzt. apply andb_true_iff in Hzt as [Hxt Hyt].
    exists i. split.
    + apply in_seq. apply lookup_lt_Some in Hx. lia.
    + cbn [forallb]. rewrite !andb_true_iff.
      split; [|split; [|reflexivity]]; apply passes_at_true; eauto.
Qed.

(** X9: asking [HavePass] for the results of two vector cuts together is
    asking it for the result of their conjunction: on every record where
    [A] and [B] return [va] and [vb], [HavePass] on the pair is [HavePass]
    on what [A && B] returns; on a single vector the two overloads agree. *)
Theorem HavePass_vv_is_HavePass_of_conjunction
    (A B : NamedFunc) (b : Baby) (w : World) :
  vector_shaped A -> vector_shaped B ->
  forall va w1 vb w2,
    returns (GetVector A b) w va w1 -> returns (GetVector B b) w1 vb w2 ->
    HavePass_vv [va] = inr (HavePass va) /\
    exists vo,
      returns (GetVector (operator_and A B) b) w vo w2 /\
      HavePass_vv [va; vb] = inr (HavePass vo).
Proof.
  intros SA SB va w1 vb w2 Ha Hb. split; [apply HavePass_vv_single|].
  destruct (logical_vector_vector_eval A B b w SA SB) as (_ & Hand & _).
  eexists. split.
  - unfold returns in *. rewrite Hand. unfold bind. rewrite Ha, Hb. reflexivity.
  - apply HavePass_vv_pair.
Qed.

(** ** Unary operators, composed *)

(** X10: negating twice applies [negate] twice, and applying logical not
    twice turns a value into its truth value, as 0 or 1: the truthiness of
    the operand, or of each of its entries, is kept, the callable of the
    operand running once. *)
Theorem unary_operators_twice (f : NamedFunc) (b : Baby) (w : World) :
  (scalar_shaped f ->
     forall x w1,
       returns (GetScalar f b) w x w1 ->
       returns (GetScalar (operator_unary_minus (operator_unary_minus f)) b) w
         (negate (negate x)) w1 /\
       returns (GetScalar (operator_not (operator_not f)) b) w
         (of_bool (to_bool x)) w1)
  /\
  (vector_shaped f ->
     forall v w1,
       returns (GetVector f b) w v w1 ->
       returns (GetVector (operator_unary_minus (operator_unary_minus f)) b) w
         (map (fun x => negate (negate x)) v) w1 /\
       returns (GetVector (operator_not (operator_not f)) b) w
         (map (fun x => of_bool (to_bool x)) v) w1).
Proof.
  destruct f as [n [s|] [v|]]; unfold scalar_shaped, vector_shaped, returns;
    cbn; (split; intros [Hs Hv]; try discriminate).
  - intros x w1 Hx. unfold bind, logical_not. rewrite Hx. cbn.
    now rewrite to_bool_of_bool, negb_involutive.
  - intros v0 w1 Hv0. unfold bind. rewrite Hv0. cbn. rewrite !List.map_map. split.
    + reflexivity.
    + unfold ret. do 2 f_equal. apply List.map_ext. intros x. unfold logical_not.
      now rewrite to_bool_of_bool, negb_involutive.
Qed.

(** ** Names of the other operators *)

Lemma operator_not_name (f : NamedFunc) :
  Name (operator_not f) = "!(" +:+ ReplaceAll_space (Name f) +:+ ")".
Proof.
  unfold operator_not, Name.
  rewrite Function_vector_name, Function_scalar_name. cbn [Name_set CleanName name_].
  now rewrite !ReplaceAll_space_app.
Qed.

(** X11: for operands whose names hold no space, unary minus and logical
    not wrap the name of their operand as ["-(" + name + ")"] and
    ["!(" + name + ")"], and [operator[]] names its result
    ["(" + receiver + ")[" + index + "]"]; these names hold no space. *)
Theorem unary_and_index_names (f g : NamedFunc) :
  clean (Name f) -> clean (Name g) ->
  (Name (operator_unary_minus f) = "-(" +:+ Name f +:+ ")" /\
   clean (Name (operator_unary_minus f)))
  /\
  (Name (operator_not f) = "!(" +:+ Name f +:+ ")" /\
   clean (Name (operator_not f)))
  /\
  (forall r,
      operator_index f g = inr r ->
      Name r = "(" +:+ Name f +:+ ")[" +:+ Name g +:+ "]" /\ clean (Name r)).
Proof.
  intros Hf Hg. unfold clean in *. split; [|split].
  - rewrite operator_unary_minus_name, Hf. split; [reflexivity|].
    now rewrite !ReplaceAll_space_app, Hf.
  - rewrite operator_not_name, Hf. split; [reflexivity|].
    now rewrite !ReplaceAll_space_app, Hf.
  - intros r Hr. unfold operator_index in Hr.
    destruct (IsScalar f); [discriminate|].
    destruct (IsVector g); [discriminate|].
    injection Hr as <-. unfold NamedFunc_scalar, CleanName, Name in *.
    cbn [name_]. rewrite !ReplaceAll_space_app, Hf, Hg.
    split; [reflexivity|]. now rewrite Hf, Hg.
Qed.

(** X12: every name the class sets is without spaces: a value built by the
    constructors and the operations has a name without spaces, provided
    the printing of a constant has none. *)
Theorem constructed_names_hold_no_space (f : NamedFunc) :
  (forall x : ScalarType, clean (ToString x)) ->
  Constructed f -> clean (Name f).
Proof.
  intros Hprint.
  induction 1 as [name f|name f|x|f name Hf IH|f g Hf IH|f g Hf IH
                 |o f g Hf IHf Hg IHg|f g Hf IHf Hg IHg|f g Hf IHf Hg IHg
                 |f Hf IH|f Hf IH|f Hf IH|f g r Hf IHf Hg IHg Hr].
  - apply ReplaceAll_space_idem.
  - apply ReplaceAll_space_idem.
  - apply Hprint.
  - apply ReplaceAll_space_idem.
  - unfold Name. now rewrite Function_scalar_name.
  - unfold Name. now rewrite Function_vector_name.
  - rewrite apply_operator_name by assumption.
    apply clean_binary_name; auto using symbol_clean.
  - unfold operator_and. rewrite through_setters_name. apply ReplaceAll_space_idem.
  - unfold operator_or. rewrite through_setters_name. apply ReplaceAll_space_idem.
  - apply ReplaceAll_space_idem.
  - unfold operator_unary_minus, Name.
    rewrite Function_vector_name, Function_scalar_name. apply ReplaceAll_space_idem.
  - unfold operator_not, Name.
    rewrite Function_vector_name, Function_scalar_name. apply ReplaceAll_space_idem.
  - unfold operator_index in Hr.
    destruct (IsScalar f); [discriminate|].
    destruct (IsVector g); [discriminate|].
    injection Hr as <-. apply ReplaceAll_space_idem.
Qed.

(** ** Operators applied to the results of operators *)

(** What the generic operators compute on a vector and a scalar and on two
    vectors, as evaluations. *)
Lemma apply_operator_vector_eval (o : BinaryOperator) (A B : NamedFunc) :
  vector_shaped A ->
  (scalar_shaped B ->
     vector_shaped (apply_operator o A B) /\
     forall b w,
       GetVector (apply_operator o A B) b w
       = (let* va := GetVector A b in
          let* sb := GetScalar B b in
          ret (map (fun x => op_c o x sb) va)) w)
  /\
  (vector_shaped B ->
     vector_shaped (apply_operator o A B) /\
     forall b w,
       GetVector (apply_operator o A B) b w
       = (let* va := GetVector A b in
          let* vb := GetVector B b in
          ret (zip_with (op_c o) va vb)) w).
Proof.
  intros SA. split; intros SB.
  - destruct (apply_operator_funcs o A B (vector_shaped_exactly_one A SA)
                (scalar_shaped_exactly_one B SB)) as [Es Ev].
    unfold vector_shaped, IsScalar, IsVector, GetScalar, GetVector.
    rewrite Es, Ev. clear Es Ev. shape_inv. rewrite_funcs.
    match goal with |- context [ApplyOp None (Some ?a) (Some ?c) None _] =>
      destruct (ApplyOp_vector_scalar (op_c o) a c None) as (g & -> & Hg) end.
    split; [split; reflexivity|]. exact Hg.
  - destruct (apply_operator_funcs o A B (vector_shaped_exactly_one A SA)
                (vector_shaped_exactly_one B SB)) as [Es Ev].
    unfold vector_shaped, IsScalar, IsVector, GetScalar, GetVector.
    rewrite Es, Ev. clear Es Ev. shape_inv. rewrite_funcs.
    match goal with |- context [ApplyOp None (Some ?a) None (Some ?c) _] =>
      destruct (ApplyOp_vector_vector (op_c o) a c) as (g & -> & Hg) end.
    split; [split; reflexivity|]. exact Hg.
Qed.

(** X14: indexing the result of a generic operator on a vector [A] is
    applying the operator at that index: with a scalar [B], [(A op B)[I]]
    returns [op(A[i], B)] when [i] is within [A]'s result; with a vector
    [B] it returns [op(A[i], B[i])] when [i] is within both results, and
    throws an IndexOutOfRangeError as soon as it is beyond the shorter one.
    The operands run in the order [A], [B], [I]. *)
Theorem index_of_operator_result
    (o : BinaryOperator) (A B I : NamedFunc) (b : Baby) (w : World) :
  vector_shaped A -> scalar_shaped I ->
  (scalar_shaped B ->
     exists r,
       operator_index (apply_operator o A B) I = inr r /\
       forall va w1 sb w2 i w3,
         returns (GetVector A b) w va w1 ->
         returns (GetScalar B b) w1 sb w2 ->
         returns (GetScalar I b) w2 i w3 ->
         match va !! to_size_t i with
         | Some x => returns (GetScalar r b) w (op_c o x sb) w3
         | None => throws (GetScalar r b) w IndexOutOfRangeError w3
         end)
  /\
  (vector_shaped B ->
     exists r,
       operator_index (apply_operator o A B) I = inr r /\
       forall va w1 vb w2 i w3,
         returns (GetVector A b) w va w1 ->
         returns (GetVector B b) w1 vb w2 ->
         returns (GetScalar I b) w2 i w3 ->
         match va !! to_size_t i, vb !! to_size_t i with
         | Some x, Some y => returns (GetScalar r b) w (op_c o x y) w3
         | _, _ => throws (GetScalar r b) w IndexOutOfRangeError w3
         end).
Proof.
  intros SA [HIs HIv].
  destruct (apply_operator_vector_eval o A B SA) as [Hvs Hvv].
  split; intros SB.
  - destruct (Hvs SB) as [[HRs HRv] HR].
    destruct (operator_index_built (apply_operator o A B) I HRs HIv)
      as (r & Hr & _ & Heval).
    exists r. split; [exact Hr|].
    intros va w1 sb w2 i w3 Ha Hb Hi. unfold returns, throws in *.
    assert (Hgo : GetScalar r b w
                  = at_ (map (fun x => op_c o x sb) va) (to_size_t i) w3).
    { rewrite Heval. unfold bind at 1. rewrite HR. unfold bind.
      rewrite Ha. cbv beta iota. rewrite Hb. unfold ret. cbv beta iota.
      now rewrite Hi. }
    rewrite Hgo. unfold at_. rewrite list_lookup_fmap.
    now destruct (va !! to_size_t i).
  - destruct (Hvv SB) as [[HRs HRv] HR].
    destruct (operator_index_built (apply_operator o A B) I HRs HIv)
      as (r & Hr & _ & Heval).
    exists r. split; [exact Hr|].
    intros va w1 vb w2 i w3 Ha Hb Hi. unfold returns, throws in *.
    assert (Hgo : GetScalar r b w
                  = at_ (zip_with (op_c o) va vb) (to_size_t i) w3).
    { rewrite Heval. unfold bind at 1. rewrite HR. unfold bind.
      rewrite Ha. cbv beta iota. rewrite Hb. unfold ret. cbv beta iota.
      now rewrite Hi. }
    rewrite Hgo. unfold at_. rewrite lookup_zip_with.
    destruct (va !! to_size_t i); [|reflexivity].
    now destruct (vb !! to_size_t i).
Qed.

(** ** De Morgan's laws, for evaluations *)

Lemma GetScalar_vector_shaped (f : NamedFunc) (b : Baby) (w : World) :
  vector_shaped f -> GetScalar f b w = (inl InvalidShapeError, w).
Proof. intros Hf. shape_inv. rewrite_funcs. reflexivity. Qed.

Lemma GetVector_scalar_shaped (f : NamedFunc) (b : Baby) (w : World) :
  scalar_shaped f -> GetVector f b w = (inl InvalidShapeError, w).
Proof. intros Hf. shape_inv. rewrite_funcs. reflexivity. Qed.

Lemma operator_not_scalar_eval (f : NamedFunc) :
  scalar_shaped f ->
  scalar_shaped (operator_not f) /\
  forall b w,
    GetScalar (operator_not f) b w
    = (let* x := GetScalar f b in ret (logical_not x)) w.
Proof.
  destruct f as [n [s|] [v|]]; intros [Hs Hv]; try discriminate.
  split; [split; reflexivity|reflexivity].
Qed.

Lemma operator_not_vector_eval (f : NamedFunc) :
  vector_shaped f ->
  vector_shaped (operator_not f) /\
  forall b w,
    GetVector (operator_not f) b w
    = (let* v := GetVector f b in ret (map logical_not v)) w.
Proof.
  destruct f as [n [s|] [v|]]; intros [Hs Hv]; try discriminate.
  split; [split; reflexivity|reflexivity].
Qed.

Lemma logical_scalar_scalar_eval (A B : NamedFunc) :
  scalar_shaped A -> scalar_shaped B ->
  (scalar_shaped (operator_and A B) /\ scalar_shaped (operator_or A B)) /\
  forall b w,
    GetScalar (operator_and A B) b w
    = (let* x := GetScalar A b in
       if to_bool x then let* y := GetScalar B b in ret (of_bool (to_bool y))
       else ret (of_bool false)) w /\
    GetScalar (operator_or A B) b w
    = (let* x := GetScalar A b in
       if to_bool x then ret (of_bool true)
       else let* y := GetScalar B b in ret (of_bool (to_bool y))) w.
Proof.
  intros SA SB.
  destruct A as [nA [sA|] [vA|]]; destruct SA as [HsA HvA]; try discriminate.
  destruct B as [nB [sB|] [vB|]]; destruct SB as [HsB HvB]; try discriminate.
  split; [repeat split|]. intros b w. split; reflexivity.
Qed.

Lemma logical_scalar_vector_eval (A B : NamedFunc) :
  scalar_shaped A -> vector_shaped B ->
  (vector_shaped (operator_and A B) /\ vector_shaped (operator_or A B)) /\
  forall b w,
    GetVector (operator_and A B) b w
    = (let* sa := GetScalar A b in
       if negb (to_bool sa)
       then let* vb := GetVector B b in ret (replicate (length vb) (of_bool false))
       else GetVector B b) w /\
    GetVector (operator_or A B) b w
    = (let* sa := GetScalar A b in
       if to_bool sa
       then let* vb := GetVector B b in ret (replicate (length vb) (of_bool true))
       else GetVector B b) w.
Proof.
  intros SA SB.
  destruct A as [nA [sA|] [vA|]]; destruct SA as [HsA HvA]; try discriminate.
  destruct B as [nB [sB|] [vB|]]; destruct SB as [HsB HvB]; try discriminate.
  split; [repeat split|]. intros b w. split; reflexivity.
Qed.

Lemma logical_vector_scalar_eval (A B : NamedFunc) :
  vector_shaped A -> scalar_shaped B ->
  (vector_shaped (operator_and A B) /\ vector_shaped (operator_or A B)) /\
  forall b w,
    GetVector (operator_and A B) b w
    = (let* va := GetVector A b in
       if existsb to_bool va
       then let* sb := GetScalar B b in
            ret (map (fun x => of_bool (to_bool x && to_bool sb)) va)
       else ret (map (fun _ => of_bool false) va)) w /\
    GetVector (operator_or A B) b w
    = (let* va := GetVector A b in
       if existsb (fun x => negb (to_bool x)) va
       then let* sb := GetScalar B b in
            ret (map (fun x => of_bool (to_bool x || to_bool sb)) va)
       else ret (map (fun _ => of_bool true) va)) w.
Proof.
  intros SA SB.
  destruct (logical_funcs A B (vector_shaped_exactly_one A SA)
                              (scalar_shaped_exactly_one B SB))
    as [[Eas Eav] [Eos Eov]].
  unfold vector_shaped, IsScalar, IsVector, GetScalar, GetVector.
  rewrite Eas, Eav, Eos, Eov. clear Eas Eav Eos Eov.
  destruct A as [nA [sA|] [vA|]]; destruct SA as [HsA HvA]; try discriminate.
  destruct B as [nB [sB|] [vB|]]; destruct SB as [HsB HvB]; try discriminate.
  cbn [scalar_func_ vector_func_].
  destruct (ApplyOp_logical_and_vector_scalar vA sB None) as (ga & -> & Hga).
  destruct (ApplyOp_logical_or_vector_scalar vA sB None) as (go & -> & Hgo).
  split; [repeat split|]. intros b w. split; [apply Hga|apply Hgo].
Qed.

(** The laws on numbers, on repeated values and on paired vectors. *)
Lemma logical_not_and (x y : ScalarType) :
  logical_not (of_bool (to_bool x && to_bool y))
  = of_bool (to_bool (logical_not x) || to_bool (logical_not y)).
Proof.
  unfold logical_not. rewrite !to_bool_of_bool.
  now destruct (to_bool x), (to_bool y).
Qed.

Lemma logical_not_or (x y : ScalarType) :
  logical_not (of_bool (to_bool x || to_bool y))
  = of_bool (to_bool (logical_not x) && to_bool (logical_not y)).
Proof.
  unfold logical_not. rewrite !to_bool_of_bool.
  now destruct (to_bool x), (to_bool y).
Qed.

Lemma to_bool_logical_not (x : ScalarType) :
  to_bool (logical_not x) = negb (to_bool x).
Proof. apply to_bool_of_bool. Qed.

Lemma map_replicate {A B} (f : A -> B) (n : nat) (x : A) :
  map f (replicate n x) = replicate n (f x).
Proof. induction n as [|n IH]; [reflexivity|]. simpl. now rewrite IH. Qed.

Lemma map_zip_with_nots (f g : ScalarType -> ScalarType -> ScalarType)
    (va vb : VectorType) :
  (forall x y, logical_not (f x y) = g (logical_not x) (logical_not y)) ->
  map logical_not (zip_with f va vb)
  = zip_with g (map logical_not va) (map logical_not vb).
Proof.
  intros Hfg. revert vb. induction va as [|x va IH]; intros [|y vb];
    try reflexivity.
  simpl. now rewrite Hfg, IH.
Qed.

Lemma existsb_map_not (va : VectorType) :
  existsb (fun x => negb (to_bool x)) (map logical_not va) = existsb to_bool va /\
  existsb to_bool (map logical_not va) = existsb (fun x => negb (to_bool x)) va.
Proof.
  induction va as [|x va [IH1 IH2]]; [split; reflexivity|]. simpl.
  rewrite IH1, IH2, to_bool_logical_not, negb_involutive. now split.
Qed.

Ltac settle :=
  cbv delta [ret logical_not] beta iota;
  rewrite ?to_bool_of_bool, ?negb_involutive;
  repeat split; reflexivity.

(** X15: De Morgan's laws hold for evaluations, callables run and worlds
    left included: on operands that hold exactly one callable each,
    [!(A && B)] evaluates on every record as [!A || !B] does, and
    [!(A || B)] as [!A && !B] does, whatever the shapes of [A] and [B]. *)
Theorem de_morgan_for_evaluations (A B : NamedFunc) (b : Baby) (w : World) :
  exactly_one A -> exactly_one B ->
  (GetScalar (operator_not (operator_and A B)) b w
   = GetScalar (operator_or (operator_not A) (operator_not B)) b w /\
   GetVector (operator_not (operator_and A B)) b w
   = GetVector (operator_or (operator_not A) (operator_not B)) b w)
  /\
  (GetScalar (operator_not (operator_or A B)) b w
   = GetScalar (operator_and (operator_not A) (operator_not B)) b w /\
   GetVector (operator_not (operator_or A B)) b w
   = GetVector (operator_and (operator_not A) (operator_not B)) b w).
Proof.
  intros HA HB.
  apply exactly_one_cases in HA as [SA|SA];
    apply exactly_one_cases in HB as [SB|SB].
  - (* scalar, scalar *)
    destruct (operator_not_scalar_eval A SA) as [SnA HnA].
    destruct (operator_not_scalar_eval B SB) as [SnB HnB].
    destruct (logical_scalar_scalar_eval A B SA SB) as [[Sand Sor] Hab].
    destruct (logical_scalar_scalar_eval _ _ SnA SnB) as [[Sand' Sor'] Hnab].
    destruct (operator_not_scalar_eval _ Sand) as [SL1 HL1].
    destruct (operator_not_scalar_eval _ Sor) as [SL2 HL2].
    rewrite !GetVector_scalar_shaped by assumption.
    rewrite HL1, HL2. destruct (Hnab b w) as [-> ->].
    unfold bind. destruct (Hab b w) as [-> ->]. unfold bind.
    rewrite HnA. unfold bind.
    destruct (GetScalar A b w) as [[e|x] w1]; [settle|].
    cbv delta [ret] beta iota. rewrite to_bool_logical_not.
    destruct (to_bool x); cbn [negb]; rewrite ?HnB; unfold bind;
      destruct (GetScalar B b w1) as [[e|y] w2]; settle.
  - (* scalar, vector *)
    destruct (operator_not_scalar_eval A SA) as [SnA HnA].
    destruct (operator_not_vector_eval B SB) as [SnB HnB].
    destruct (logical_scalar_vector_eval A B SA SB) as [[Sand Sor] Hab].
    destruct (logical_scalar_vector_eval _ _ SnA SnB) as [[Sand' Sor'] Hnab].
    destruct (operator_not_vector_eval _ Sand) as [SL1 HL1].
    destruct (operator_not_vector_eval _ Sor) as [SL2 HL2].
    rewrite !GetScalar_vector_shaped by assumption.
    rewrite HL1, HL2. destruct (Hnab b w) as [-> ->].
    unfold bind. destruct (Hab b w) as [-> ->]. unfold bind.
    rewrite HnA. unfold bind.
    destruct (GetScalar A b w) as [[e|x] w1]; [settle|].
    cbv delta [ret] beta iota. rewrite to_bool_logical_not.
    destruct (to_bool x); cbn [negb]; rewrite ?HnB; unfold bind;
      destruct (GetVector B b w1) as [[e|vb] w2];
      cbv delta [ret] beta iota;
      rewrite ?map_replicate, ?length_map; settle.
  - (* vector, scalar *)
    destruct (operator_not_vector_eval A SA) as [SnA HnA].
    destruct (operator_not_scalar_eval B SB) as [SnB HnB].
    destruct (logical_vector_scalar_eval A B SA SB) as [[Sand Sor] Hab].
    destruct (logical_vector_scalar_eval _ _ SnA SnB) as [[Sand' Sor'] Hnab].
    destruct (operator_not_vector_eval _ Sand) as [SL1 HL1].
    destruct (operator_not_vector_eval _ Sor) as [SL2 HL2].
    rewrite !GetScalar_vector_shaped by assumption.
    rewrite HL1, HL2. destruct (Hnab b w) as [-> ->].
    unfold bind. destruct (Hab b w) as [-> ->]. unfold bind.
    rewrite HnA. unfold bind.
    destruct (GetVector A b w) as [[e|va] w1]; [settle|].
    cbv delta [ret] beta iota.
    destruct (existsb_map_not va) as [-> ->].
    split; split; try reflexivity.
    + destruct (existsb to_bool va).
      * rewrite HnB. unfold bind.
        destruct (GetScalar B b w1) as [[e|sb] w2]; [reflexivity|].
        cbv delta [ret] beta iota. rewrite !List.map_map. do 2 f_equal.
        apply List.map_ext. intros x. apply logical_not_and.
      * cbv delta [ret] beta iota. rewrite !List.map_map. do 2 f_equal.
        apply List.map_ext. intros x. unfold logical_not.
        now rewrite to_bool_of_bool.
    + destruct (existsb (fun x => negb (to_bool x)) va).
      * rewrite HnB. unfold bind.
        destruct (GetScalar B b w1) as [[e|sb] w2]; [reflexivity|].
        cbv delta [ret] beta iota. rewrite !List.map_map. do 2 f_equal.
        apply List.map_ext. intros x. apply logical_not_or.
      * cbv delta [ret] beta iota. rewrite !List.map_map. do 2 f_equal.
        apply List.map_ext. intros x. unfold logical_not.
        now rewrite to_bool_of_bool.
  - (* vector, vector *)
    destruct (operator_not_vector_eval A SA) as [SnA HnA].
    destruct (operator_not_vector_eval B SB) as [SnB HnB].
    destruct (logical_vector_vector_eval A B b w SA SB) as ([Sand Sor] & Hand & Hor).
    destruct (logical_vector_vector_eval _ _ b w SnA SnB)
      as ([Sand' Sor'] & Hnand & Hnor).
    destruct (operator_not_vector_eval _ Sand) as [SL1 HL1].
    destruct (operator_not_vector_eval _ Sor) as [SL2 HL2].
    rewrite !GetScalar_vector_shaped by assumption.
    rewrite HL1, HL2, Hnand, Hnor. unfold bind. rewrite Hand, Hor. unfold bind.
    rewrite HnA. unfold bind.
    destruct (GetVector A b w) as [[e|va] w1]; [settle|].
    cbv delta [ret] beta iota. rewrite HnB. unfold bind.
    destruct (GetVector B b w1) as [[e|vb] w2]; [settle|].
    cbv delta [ret] beta iota.
    rewrite (map_zip_with_nots _ (fun x y => of_bool (to_bool x || to_bool y)))
      by apply logical_not_and.
    rewrite (map_zip_with_nots _ (fun x y => of_bool (to_bool x && to_bool y)))
      by apply logical_not_or.
    repeat split; reflexivity.
Qed.

(** X16: a cut on a vector passes on some entry exactly when the comparison
    holds for some entry: for a comparison operator, a vector [A] and a
    scalar [B], [HavePass] on what [A op B] returns is true exactly when
    some entry [x] of [A]'s result has [cmp x b] true. *)
Theorem HavePass_of_comparison
    (o : BinaryOperator) (cmp : ScalarType -> ScalarType -> bool)
    (A B : NamedFunc) (b : Baby) (w : World) :
  op_c o = as_scalar cmp ->
  vector_shaped A -> scalar_shaped B ->
  forall va w1 sb w2,
    returns (GetVector A b) w va w1 -> returns (GetScalar B b) w1 sb w2 ->
    exists vo,
      returns (GetVector (apply_operator o A B) b) w vo w2 /\
      (HavePass vo = true <-> exists i x, va !! i = Some x /\ cmp x sb = true).
Proof.
  intros Hcmp SA SB va w1 sb w2 Ha Hb.
  destruct (apply_operator_vector_eval o A B SA) as [Hvs _].
  destruct (Hvs SB) as [_ HR].
  exists (map (fun x => op_c o x sb) va). split.
  - unfold returns in *. rewrite HR. unfold bind. now rewrite Ha, Hb.
  - rewrite HavePass_true_iff, Hcmp. unfold as_scalar. split.
    + intros (i & z & Hz & Hzt).
      apply list_lookup_fmap_Some in Hz as (x & -> & Hx).
      rewrite to_bool_of_bool in Hzt. eauto.
    + intros (i & x & Hx & Hxt). exists i, (of_bool (cmp x sb)). split.
      * now apply (list_lookup_fmap_Some_2 (fun x => of_bool (cmp x sb))).
      * now rewrite to_bool_of_bool.
Qed.

End Properties.







(** * The properties on concrete records *)

(** Witness of C1: jets_pt + [1;2] on a record with three jets has two
    entries, the second one 22; the difference of two ticks is -1 where the
    left operand runs first and 1 where the right one does. *)
Lemma binary_operator_shape_table_witness :
  exactly_one leaf_jets_pt /\ exactly_one (const_vector "v" [1; 2]%Z) /\
  (exists vo,
      returns (GetVector (apply_operator OpPlus leaf_jets_pt
                            (const_vector "v" [1; 2]%Z)) event5) 0 vo 0 /\
      length vo = 2 /\ vo !! 1 = Some 22%Z) /\
  returns (GetScalar (apply_operator (order := true) OpMinus tick tick) event0)
    0 (-1)%Z 2 /\
  returns (GetScalar (apply_operator (order := false) OpMinus tick tick) event0)
    0 1%Z 2.
Proof.
  split; [reflexivity|]. split; [reflexivity|]. split; [|split].
  - destruct (binary_operator_shape_table OpPlus leaf_jets_pt
                (const_vector "v" [1; 2]%Z) event5 0 eq_refl eq_refl)
      as (_ & _ & _ & Hvv).
    destruct (Hvv (conj eq_refl eq_refl) (conj eq_refl eq_refl)) as [_ Hev].
    destruct (Hev [10; 20; 30]%Z 0 [1; 2]%Z 0 eq_refl eq_refl)
      as (vo & Hr & Hlen & Hel).
    exists vo. split; [exact Hr|]. split; [exact Hlen|].
    apply (Hel 1 20%Z 2%Z); reflexivity.
  - destruct (binary_operator_shape_table (order := true) OpMinus tick tick
                event0 0 eq_refl eq_refl) as (Hss & _).
    destruct (Hss (conj eq_refl eq_refl) (conj eq_refl eq_refl))
      as (_ & Hleft & _).
    exact (Hleft eq_refl 0%Z 1 1%Z 2 eq_refl eq_refl).
  - destruct (binary_operator_shape_table (order := false) OpMinus tick tick
                event0 0 eq_refl eq_refl) as (Hss & _).
    destruct (Hss (conj eq_refl eq_refl) (conj eq_refl eq_refl))
      as (_ & _ & Hright).
    exact (Hright eq_refl 0%Z 1 1%Z 2 eq_refl eq_refl).
Defined.

(** Witness of C2: with njets = 0 the conjunction with the counted vector
    is three zeros, and the vector accessor has been called once. *)
Lemma logical_scalar_vector_runs_operand_witness :
  scalar_shaped leaf_njets /\ vector_shaped counted_jets_pt /\
  returns (GetVector (operator_and leaf_njets counted_jets_pt) event0) 0
    [0; 0; 0]%Z 1 /\
  returns (GetVector (operator_or leaf_njets counted_jets_pt) event0) 0
    [10; 20; 30]%Z 1.
Proof.
  split; [split; reflexivity|]. split; [split; reflexivity|].
  destruct (logical_scalar_vector_runs_operand leaf_njets counted_jets_pt event0 0
              (conj eq_refl eq_refl) (conj eq_refl eq_refl))
    as (_ & Hev & _).
  exact (Hev 0%Z 0 [10; 20; 30]%Z 1 eq_refl eq_refl).
Defined.

(** Counterexample to C2 as stated: with njets = 0 the evaluation of
    [njets && jets_pt] has called the vector accessor (the count is 1, not
    0); with njets = 1 so has the evaluation of [njets || jets_pt]. *)
Lemma short_circuit_runs_vector_operand :
  GetVector (operator_and leaf_njets counted_jets_pt) event0 0
    = (inr [0; 0; 0]%Z, 1) /\
  GetVector (operator_or leaf_njets counted_jets_pt) event1 0
    = (inr [1; 1; 1]%Z, 1) /\
  ~ and_skips_vector_operand leaf_njets counted_jets_pt event0 0 /\
  ~ or_skips_vector_operand leaf_njets counted_jets_pt event1 0.
Proof.
  split; [reflexivity|]. split; [reflexivity|]. split.
  - intros Hskip. destruct (Hskip 0%Z 0 eq_refl eq_refl) as [n Hn].
    vm_compute in Hn. discriminate Hn.
  - intros Hskip. destruct (Hskip 1%Z 0 eq_refl eq_refl) as [n Hn].
    vm_compute in Hn. discriminate Hn.
Qed.

(** Witness of C3: three truthy jets and'ed with the counted scalar: the
    scalar accessor has been called once, not three times; with no truthy
    entry it is not called. *)
Lemma logical_vector_scalar_runs_operand_once_witness :
  vector_shaped leaf_jets_pt /\ scalar_shaped counted_njets /\
  returns (GetVector (operator_and leaf_jets_pt counted_njets) event5) 0
    [1; 1; 1]%Z 1 /\
  returns (GetVector (operator_or leaf_jets_pt counted_njets) event5) 0
    [1; 1; 1]%Z 0.
Proof.
  split; [split; reflexivity|]. split; [split; reflexivity|].
  destruct (logical_vector_scalar_runs_operand_once leaf_jets_pt counted_njets
              event5 0 (conj eq_refl eq_refl) (conj eq_refl eq_refl))
    as (_ & Hev).
  destruct (Hev [10; 20; 30]%Z 0 eq_refl) as (_ & Hand & Hor & _).
  split; [exact (Hand 5%Z 1 eq_refl eq_refl)|exact (Hor eq_refl)].
Defined.

(** Counterexample to C4 as stated: the constructor handed an empty
    callable builds a value that holds neither callable. *)
Lemma constructor_keeps_empty_callable :
  IsScalar leaf_empty = false /\ IsVector leaf_empty = false /\
  ~ exactly_one leaf_empty /\
  ~ @constructor_yields_exactly_one Z Event Calls.
Proof.
  split; [reflexivity|]. split; [reflexivity|]. split.
  - intros Hx. discriminate Hx.
  - intros Hc. specialize (Hc "x" None). discriminate Hc.
Qed.

(** Witness of C5: on jets [10;20;30], indexing by njets = 1 gives 20, by
    njets = 5 throws; indexing a scalar is refused. *)
Lemma operator_index_defined_on_vector_and_scalar_witness :
  (exists r,
      operator_index leaf_jets_pt leaf_njets = inr r /\
      returns (GetScalar r event1) 0 20%Z 0 /\
      throws (GetScalar r event5) 0 IndexOutOfRangeError 0) /\
  (exists msg, operator_index leaf_njets leaf_njets = inl (ShapeMismatchError msg)).
Proof.
  destruct (operator_index_defined_on_vector_and_scalar leaf_jets_pt leaf_njets)
    as (_ & _ & Hbuilt).
  destruct (Hbuilt (conj eq_refl eq_refl) (conj eq_refl eq_refl))
    as (r & Hr & _ & Hev).
  split.
  - exists r. split; [exact Hr|]. split.
    + exact (Hev event1 0 [10; 20; 30]%Z 0 1%Z 0 eq_refl eq_refl).
    + exact (Hev event5 0 [10; 20; 30]%Z 0 5%Z 0 eq_refl eq_refl).
  - destruct (operator_index_defined_on_vector_and_scalar leaf_njets leaf_njets)
      as (Hguard & _).
    exact (Hguard eq_refl).
Defined.

(** Counterexample to C6 as stated: applying [operator[]] to a scalar
    receiver fails when the expression is built, no record in sight. *)
Lemma shape_mismatch_at_construction :
  operator_index leaf_njets leaf_njets
    = inl (ShapeMismatchError
             "Cannot apply indexing operator to scalar NamedFunc njets") /\
  ~ @index_errors_only_at_evaluation Z _ Event Calls.
Proof.
  split; [reflexivity|].
  intros Hlazy. destruct (Hlazy leaf_njets leaf_njets eq_refl eq_refl) as [r Hr].
  discriminate Hr.
Qed.

(** Witness of C6. *)
Lemma errors_at_construction_and_at_evaluation_witness :
  exactly_one (operator_gt leaf_jets_pt leaf_njets) /\
  (exists r,
      operator_index leaf_jets_pt leaf_njets = inr r /\
      throws (GetScalar r event5) 0 IndexOutOfRangeError 0) /\
  throws (GetScalar leaf_jets_pt event1) 0 InvalidShapeError 0.
Proof.
  destruct (errors_at_construction_and_at_evaluation leaf_jets_pt leaf_njets)
    as (Hbin & Hidx & Hshape & _).
  split; [|split].
  - destruct (Hbin eq_refl eq_refl) as [Hop _]. exact (Hop OpGt).
  - destruct (Hidx (conj eq_refl eq_refl) (conj eq_refl eq_refl)) as (r & Hr & Hev).
    exists r. split; [exact Hr|].
    apply (Hev event5 0 [10; 20; 30]%Z 0 5%Z 0 eq_refl eq_refl).
    vm_compute. lia.
  - destruct (Hshape event1 0) as [Hs _]. exact (Hs (conj eq_refl eq_refl)).
Defined.

(** Witness of C7: the three lists of the specification. *)
Lemma HavePass_vv_common_index_witness :
  HavePass_vv [[1; 0; 1]; [1; 1; 0]]%Z = inr true /\
  HavePass_vv [[0; 0]; [1; 1]]%Z = inr false /\
  HavePass_vv ([] : list (list Z)) = inr false.
Proof.
  split; [|split].
  - destruct (HavePass_vv_common_index [[1; 0; 1]; [1; 1; 0]]%Z)
      as (_ & r & Hr & Hiff).
    rewrite Hr. f_equal. apply Hiff. split; [discriminate|].
    exists 0. repeat constructor; eexists; split; reflexivity.
  - reflexivity.
  - exact (proj1 (HavePass_vv_common_index ([] : list (list Z)))).
Defined.

(** Witness of C8: negating the jets negates each entry; negating njets
    negates it. *)
Lemma unary_operators_keep_shape_witness :
  returns (GetVector (operator_unary_minus leaf_jets_pt) event1) 0
    [-10; -20; -30]%Z 0 /\
  returns (GetScalar (operator_not leaf_njets) event5) 0 0%Z 0 /\
  Name (operator_unary_plus leaf_njets) = "+(njets)".
Proof.
  destruct (unary_operators_keep_shape leaf_jets_pt event1 0)
    as (_ & Hv & _).
  destruct (Hv (conj eq_refl eq_refl)) as [_ Hev].
  destruct (Hev [10; 20; 30]%Z 0 eq_refl) as [Hneg _].
  destruct (unary_operators_keep_shape leaf_njets event5 0)
    as (Hs & _ & _ & _ & _ & _ & _ & _ & Hname).
  destruct (Hs (conj eq_refl eq_refl)) as [_ Hev'].
  destruct (Hev' 5%Z 0 eq_refl) as [_ Hnot].
  split; [exact Hneg|]. split; [exact Hnot|exact Hname].
Defined.


(** Witness of C10. *)
Lemma operator_agrees_with_compound_assignment_witness :
  Name (operator_mod leaf_x leaf_y) = Name (operator_mod_eq leaf_x leaf_y) /\
  GetScalar (operator_mod leaf_njets (NamedFunc_const 3%Z)) event5 0
    = GetScalar (operator_mod_eq leaf_njets (NamedFunc_const 3%Z)) event5 0.
Proof.
  destruct (operator_agrees_with_compound_assignment leaf_x leaf_y)
    as (_ & _ & _ & _ & Hname & _).
  destruct (operator_agrees_with_compound_assignment leaf_njets (NamedFunc_const 3%Z))
    as (_ & _ & _ & _ & _ & _ & _ & Hev).
  split; [exact Hname|exact (proj1 (Hev event5 0))].
Defined.

(** Witness of C4: a comparison of two constructed values is constructed,
    and holds exactly one callable; setting an empty callable is a no-op. *)
Lemma exactly_one_invariant_witness :
  exactly_one (operator_gt leaf_jets_pt (NamedFunc_const 15%Z)) /\
  Function_scalar leaf_jets_pt None = leaf_jets_pt.
Proof.
  destruct (@exactly_one_invariant Z _ Event Calls _) as (Hinv & _ & _ & Hnoop).
  split.
  - apply Hinv. apply (C_operator OpGt).
    + exact (C_vector _ _).
    + exact (C_const _).
  - exact (proj1 (Hnoop leaf_jets_pt)).
Defined.

(** * The further properties on concrete records *)

(** Witness of X1: with njets = 0, [njets && counted] is 0 and the counted
    accessor has not run; with njets = 5 it has run once. *)
Lemma logical_scalar_scalar_short_circuits_witness :
  scalar_shaped leaf_njets /\ scalar_shaped counted_njets /\
  returns (GetScalar (operator_and leaf_njets counted_njets) event0) 0 0%Z 0 /\
  returns (GetScalar (operator_and leaf_njets counted_njets) event5) 0 1%Z 1 /\
  returns (GetScalar (operator_or leaf_njets counted_njets) event5) 0 1%Z 0.
Proof.
  split; [split; reflexivity|]. split; [split; reflexivity|].
  destruct (logical_scalar_scalar_short_circuits leaf_njets counted_njets event0 0
              (conj eq_refl eq_refl) (conj eq_refl eq_refl)) as (_ & H0).
  destruct (logical_scalar_scalar_short_circuits leaf_njets counted_njets event5 0
              (conj eq_refl eq_refl) (conj eq_refl eq_refl)) as (_ & H5).
  destruct (H0 0%Z 0 eq_refl) as (Hand0 & _ & _).
  destruct (H5 5%Z 0 eq_refl) as (_ & Hor5 & Hrun).
  destruct (Hrun 5%Z 1 eq_refl) as (Hand5 & _).
  split; [exact (Hand0 eq_refl)|]. split; [exact (Hand5 eq_refl)|exact (Hor5 eq_refl)].
Defined.

(** Witness of X2: three jets and'ed with a vector of two entries. *)
Lemma logical_vector_vector_pairs_entries_witness :
  vector_shaped leaf_jets_pt /\ vector_shaped (const_vector "v" [0; 7]%Z) /\
  exists vand vor,
    returns (GetVector (operator_and leaf_jets_pt (const_vector "v" [0; 7]%Z)) event1)
      0 vand 0 /\
    returns (GetVector (operator_or leaf_jets_pt (const_vector "v" [0; 7]%Z)) event1)
      0 vor 0 /\
    length vand = 2 /\ vand !! 0 = Some 0%Z /\ vor !! 1 = Some 1%Z.
Proof.
  split; [split; reflexivity|]. split; [split; reflexivity|].
  destruct (logical_vector_vector_pairs_entries leaf_jets_pt
              (const_vector "v" [0; 7]%Z) event1 0
              (conj eq_refl eq_refl) (conj eq_refl eq_refl)) as (_ & Hev).
  destruct (Hev [10; 20; 30]%Z 0 [0; 7]%Z 0 eq_refl eq_refl)
    as (vand & vor & Hand & Hor & Hlen & _ & Hentry).
  exists vand, vor. split; [exact Hand|]. split; [exact Hor|]. split; [exact Hlen|].
  split.
  - exact (proj1 (Hentry 0 10%Z 0%Z eq_refl eq_refl)).
  - exact (proj2 (Hentry 1 20%Z 7%Z eq_refl eq_refl)).
Defined.

(** Witness of X3: with njets = 5 the conjunction with the jets is the
    jets themselves, truthy entries, not ones. *)
Lemma logical_scalar_vector_truth_values_witness :
  scalar_shaped leaf_njets /\ vector_shaped counted_jets_pt /\
  exists vand vor,
    returns (GetVector (operator_and leaf_njets counted_jets_pt) event5) 0 vand 1 /\
    returns (GetVector (operator_or leaf_njets counted_jets_pt) event5) 0 vor 1 /\
    length vand = 3 /\
    exists z, vand !! 1 = Some z /\ to_bool z = true.
Proof.
  split; [split; reflexivity|]. split; [split; reflexivity|].
  destruct (logical_scalar_vector_truth_values leaf_njets counted_jets_pt event5 0
              (conj eq_refl eq_refl) (conj eq_refl eq_refl)
              5%Z 0 [10; 20; 30]%Z 1 eq_refl eq_refl)
    as (vand & vor & Hand & Hor & Hlen & _ & Hentry).
  exists vand, vor. split; [exact Hand|]. split; [exact Hor|]. split; [exact Hlen|].
  exact (proj1 (Hentry 1 20%Z eq_refl)).
Defined.

(** Witness of X4: a missing vector branch plus a counted scalar: the fault
    is the branch's and the counted accessor has not run. *)
Lemma generic_operator_passes_faults_on_witness :
  throws (GetVector (apply_operator OpPlus missing_vector counted_njets) event1) 0
    (EvaluatorError "no branch mus_pt") 0 /\
  throws (GetVector (apply_operator OpGt counted_jets_pt missing_scalar) event1) 0
    (EvaluatorError "no branch met") 1.
Proof.
  destruct (generic_operator_passes_faults_on OpPlus missing_vector counted_njets
              event1 0 (EvaluatorError "no branch mus_pt")) as (_ & Hvs & _).
  destruct (Hvs (conj eq_refl eq_refl) (conj eq_refl eq_refl)) as [Hleft _].
  destruct (generic_operator_passes_faults_on OpGt counted_jets_pt missing_scalar
              event1 0 (EvaluatorError "no branch met")) as (_ & Hvs' & _).
  destruct (Hvs' (conj eq_refl eq_refl) (conj eq_refl eq_refl)) as [_ Hright].
  split; [exact (Hleft 0 eq_refl)|exact (Hright [10; 20; 30]%Z 1 1 eq_refl eq_refl)].
Defined.

(** Witness of X5: compared with a value built from an empty callable,
    njets evaluates to njets; added to it, it faults. *)
Lemma operand_without_callable_witness :
  IsScalar leaf_empty = false /\ IsVector leaf_empty = false /\
  GetScalar (operator_eq leaf_njets leaf_empty) event5 0 = (inr 5%Z, 0) /\
  Name (operator_eq leaf_njets leaf_empty) = "(njets)==(x)" /\
  throws (GetScalar (operator_plus leaf_njets leaf_empty) event5) 0 InvalidShapeError 0.
Proof.
  split; [reflexivity|]. split; [reflexivity|].
  destruct (operand_without_callable OpEq leaf_njets leaf_empty eq_refl eq_refl)
    as ((_ & _ & Hkeep) & _).
  destruct (operand_without_callable OpPlus leaf_njets leaf_empty eq_refl eq_refl)
    as ((_ & _ & Hfault) & _).
  split; [exact (proj1 (Hkeep event5 0))|]. split; [reflexivity|].
  exact (proj1 (Hfault event5 0)).
Defined.

(** Witness of X6: indexing the jets by a value without callable is
    accepted and faults when evaluated. *)
Lemma operator_index_without_callable_witness :
  exists r,
    operator_index leaf_jets_pt leaf_empty = inr r /\
    throws (GetScalar r event1) 0 InvalidShapeError 0.
Proof.
  destruct (operator_index_without_callable leaf_jets_pt leaf_empty) as (_ & Hidx).
  destruct (Hidx (conj eq_refl eq_refl) eq_refl eq_refl) as (r & Hr & _ & Hev).
  exists r. split; [exact Hr|].
  exact (Hev event1 0 [10; 20; 30]%Z 0 eq_refl).
Defined.

(** Witness of X7. *)
Lemma HavePass_some_truthy_entry_witness :
  HavePass [0; 0; 3]%Z = true /\ HavePass [0; 0]%Z = false.
Proof.
  destruct (HavePass_some_truthy_entry [0; 0; 3]%Z []) as (Htrue & _).
  destruct (HavePass_some_truthy_entry [0; 0]%Z []) as (_ & Hfalse & _).
  split.
  - apply Htrue. exists 2, 3%Z. split; reflexivity.
  - apply Hfalse. repeat constructor.
Defined.

(** Witness of X8: the two cuts of the specification, in both orders. *)
Lemma HavePass_vv_any_order_witness :
  Permutation [[1; 0; 1]; [1; 1; 0; 1]]%Z [[1; 1; 0; 1]; [1; 0; 1]]%Z /\
  HavePass_vv [[1; 0; 1]; [1; 1; 0; 1]]%Z = HavePass_vv [[1; 1; 0; 1]; [1; 0; 1]]%Z.
Proof.
  split; [apply perm_swap|].
  apply HavePass_vv_any_order. apply perm_swap.
Defined.

(** Witness of X9: the jets and a second cut. *)
Lemma HavePass_vv_is_HavePass_of_conjunction_witness :
  exists vo,
    returns (GetVector (operator_and leaf_jets_pt (const_vector "v" [0; 7]%Z)) event1)
      0 vo 0 /\
    HavePass_vv [[10; 20; 30]; [0; 7]]%Z = inr (HavePass vo).
Proof.
  destruct (HavePass_vv_is_HavePass_of_conjunction leaf_jets_pt
              (const_vector "v" [0; 7]%Z) event1 0
              (conj eq_refl eq_refl) (conj eq_refl eq_refl)
              [10; 20; 30]%Z 0 [0; 7]%Z 0 eq_refl eq_refl) as (_ & Hvo).
  exact Hvo.
Defined.

(** Witness of X10: njets = 5 negated twice by [!] is 1. *)
Lemma unary_operators_twice_witness :
  returns (GetScalar (operator_not (operator_not leaf_njets)) event5) 0 1%Z 0 /\
  returns (GetVector (operator_unary_minus (operator_unary_minus leaf_jets_pt)) event1)
    0 [10; 20; 30]%Z 0.
Proof.
  destruct (unary_operators_twice leaf_njets event5 0) as (Hs & _).
  destruct (unary_operators_twice leaf_jets_pt event1 0) as (_ & Hv).
  split.
  - exact (proj2 (Hs (conj eq_refl eq_refl) 5%Z 0 eq_refl)).
  - exact (proj1 (Hv (conj eq_refl eq_refl) [10; 20; 30]%Z 0 eq_refl)).
Defined.

(** Witness of X11. *)
Lemma unary_and_index_names_witness :
  clean (Name leaf_jets_pt) /\ clean (Name leaf_njets) /\
  Name (operator_not leaf_jets_pt) = "!(jets_pt)" /\
  exists r,
    operator_index leaf_jets_pt leaf_njets = inr r /\ Name r = "(jets_pt)[njets]".
Proof.
  split; [reflexivity|]. split; [reflexivity|].
  destruct (unary_and_index_names leaf_jets_pt leaf_njets eq_refl eq_refl)
    as (_ & (Hnot & _) & Hidx).
  split; [exact Hnot|].
  eexists. split; [reflexivity|]. exact (proj1 (Hidx _ eq_refl)).
Defined.

(** The decimal printing of an integer holds no space. *)
Lemma pretty_N_char_not_space (x : N) : Ascii.eqb (pretty_N_char x) " " = false.
Proof. unfold pretty_N_char. repeat case_match; reflexivity. Qed.

Lemma pretty_N_go_clean (x : N) : forall s, clean s -> clean (pretty_N_go x s).
Proof.
  induction (N.lt_wf_0 x) as [x _ IH]; intros s Hs.
  destruct (decide (x = 0)%N) as [->|Hx]; [exact Hs|].
  rewrite pretty_N_go_step by lia. apply IH; [apply N.div_lt; lia|].
  unfold clean in *. simpl. now rewrite pretty_N_char_not_space, Hs.
Qed.

Lemma pretty_Z_clean (z : Z) : clean (ToString z).
Proof.
  assert (Hpos : forall p, clean (pretty (N.pos p))).
  { intros p. unfold pretty, pretty_N. rewrite decide_False by discriminate.
    now apply pretty_N_go_clean. }
  destruct z as [|p|p]; [reflexivity|apply Hpos|].
  change (clean ("-" +:+ pretty (N.pos p))).
  unfold clean. simpl. f_equal. apply Hpos.
Qed.

(** Witness of X12: a comparison of the jets with the constant 15. *)
Lemma constructed_names_hold_no_space_witness :
  (forall z : Z, clean (ToString z)) /\
  clean (Name (operator_gt leaf_jets_pt (NamedFunc_const 15%Z))).
Proof.
  split; [exact pretty_Z_clean|].
  apply (constructed_names_hold_no_space
           (operator_gt leaf_jets_pt (NamedFunc_const 15%Z)) pretty_Z_clean).
  apply (C_operator OpGt); [exact (C_vector _ _)|exact (C_const _)].
Defined.

(** Witness of X13: jets with no truthy entry and'ed with a missing scalar
    branch return; three truthy jets and'ed with it fault. *)
Lemma logical_vector_scalar_fault_needs_trigger_witness :
  returns (GetVector (operator_and (const_vector "v" [0; 0]%Z) missing_scalar) event1)
    0 [0; 0]%Z 0 /\
  throws (GetVector (operator_and leaf_jets_pt missing_scalar) event1)
    0 (EvaluatorError "no branch met") 0.
Proof.
  split.
  - exact (proj1 (logical_vector_scalar_fault_needs_trigger
                    (const_vector "v" [0; 0]%Z) missing_scalar event1 0
                    (conj eq_refl eq_refl) (conj eq_refl eq_refl)
                    [0; 0]%Z 0 (EvaluatorError "no branch met") 0 eq_refl eq_refl)).
  - exact (proj1 (logical_vector_scalar_fault_needs_trigger
                    leaf_jets_pt missing_scalar event1 0
                    (conj eq_refl eq_refl) (conj eq_refl eq_refl)
                    [10; 20; 30]%Z 0 (EvaluatorError "no branch met") 0
                    eq_refl eq_refl)).
Defined.

(** Witness of X14: (jets_pt + 5)[njets] is 25 for njets = 1 and faults for
    njets = 5. *)
Lemma index_of_operator_result_witness :
  vector_shaped leaf_jets_pt /\ scalar_shaped leaf_njets /\
  exists r,
    operator_index (apply_operator OpPlus leaf_jets_pt (NamedFunc_const 5%Z))
      leaf_njets = inr r /\
    returns (GetScalar r event1) 0 25%Z 0 /\
    throws (GetScalar r event5) 0 IndexOutOfRangeError 0.
Proof.
  split; [split; reflexivity|]. split; [split; reflexivity|].
  destruct (index_of_operator_result OpPlus leaf_jets_pt (NamedFunc_const 5%Z)
              leaf_njets event1 0 (conj eq_refl eq_refl) (conj eq_refl eq_refl))
    as (Hvs1 & _).
  destruct (index_of_operator_result OpPlus leaf_jets_pt (NamedFunc_const 5%Z)
              leaf_njets event5 0 (conj eq_refl eq_refl) (conj eq_refl eq_refl))
    as (Hvs5 & _).
  destruct (Hvs1 (conj eq_refl eq_refl)) as (r & Hr & Hev1).
  destruct (Hvs5 (conj eq_refl eq_refl)) as (r5 & Hr5 & Hev5).
  rewrite Hr in Hr5. injection Hr5 as <-.
  exists r. split; [exact Hr|]. split.
  - exact (Hev1 [10; 20; 30]%Z 0 5%Z 0 1%Z 0 eq_refl eq_refl eq_refl).
  - exact (Hev5 [10; 20; 30]%Z 0 5%Z 0 5%Z 0 eq_refl eq_refl eq_refl).
Defined.

(** Witness of X15: the jets and the counted njets. *)
Lemma de_morgan_for_evaluations_witness :
  exactly_one leaf_jets_pt /\ exactly_one counted_njets /\
  GetVector (operator_not (operator_and leaf_jets_pt counted_njets)) event5 0
  = GetVector (operator_or (operator_not leaf_jets_pt) (operator_not counted_njets))
      event5 0 /\
  GetVector (operator_or (operator_not leaf_jets_pt) (operator_not counted_njets))
    event5 0 = (inr [0; 0; 0]%Z, 1).
Proof.
  split; [reflexivity|]. split; [reflexivity|].
  destruct (de_morgan_for_evaluations leaf_jets_pt counted_njets event5 0
              eq_refl eq_refl) as ((_ & Hv) & _).
  split; [exact Hv|reflexivity].
Defined.

(** Witness of X16: some jet has pt > 15. *)
Lemma HavePass_of_comparison_witness :
  exists vo,
    returns (GetVector (apply_operator OpGt leaf_jets_pt (NamedFunc_const 15%Z))
               event1) 0 vo 0 /\
    HavePass vo = true.
Proof.
  destruct (HavePass_of_comparison OpGt Z.gtb leaf_jets_pt (NamedFunc_const 15%Z)
              event1 0 (eq_refl : @op_c Z Scalar_Z OpGt = @as_scalar Z Scalar_Z Z.gtb)
              (conj eq_refl eq_refl) (conj eq_refl eq_refl)
              [10; 20; 30]%Z 0 15%Z 0 eq_refl eq_refl) as (vo & Hvo & Hiff).
  exists vo. split; [exact Hvo|].
  apply Hiff. exists 1, 20%Z. split; reflexivity.
Defined.

(** Witness of C9: the names of the specification, and a leaf constructed
    on a string with a space. *)
Lemma binary_operator_names_witness :
  Name (operator_plus leaf_x leaf_y) = "(x)+(y)" /\
  Name (operator_unary_minus (operator_unary_minus leaf_x)) = "-(-(x))" /\
  Name (operator_gt leaf_spaced leaf_y) = "(njets)>(y)" /\
  Name (operator_plus leaf_spaced (NamedFunc_const 30%Z)) = "(njets)+(30)" /\
  Name (operator_and leaf_spaced leaf_y) = "(njets)&&(y)".
Proof.
  destruct (binary_operator_names leaf_x leaf_y)
    as (_ & _ & _ & _ & Hplus & _ & Hneg & _).
  destruct (binary_operator_names leaf_spaced leaf_y)
    as (Hop & Hand & _).
  destruct (binary_operator_names leaf_spaced (NamedFunc_const 30%Z))
    as (_ & _ & _ & Hbuilt & _).
  destruct (Hbuilt pretty_Z_clean (C_scalar _ _) (C_const _)) as (Hall & _).
  split; [exact Hplus|]. split; [exact Hneg|]. split; [exact (Hop OpGt)|].
  split; [exact (proj1 (Hall OpPlus))|exact Hand].
Defined.
